(** * PresentationController (script.js): slide navigation and mode controller

    A shallow embedding of the controller class of [script.js]: the fields of
    the controller, the part of the page it reads and writes, and the pending
    [setTimeout] callbacks are an explicit state; every method is a function
    in a small state-and-exception monad (a [TypeError] raised by a property
    access on [undefined] keeps the state reached so far). *)

From Stdlib Require Import ZArith Ascii String.
From stdpp Require Import base numbers list strings pretty.

Local Open Scope string_scope.
Local Open Scope Z_scope.

(** ** JavaScript string helpers *)

Module Js.

(** Strings are sequences of code units below 256. *)

Definition backslash : ascii := "092"%char.

Definition is_char (c d : ascii) : bool := bool_decide (c = d).

(** [StrWhiteSpaceChar] restricted to code units below 256:
    TAB, LF, VT, FF, CR, SP and NBSP. *)
Definition is_whitespace (c : ascii) : bool :=
  let n := nat_of_ascii c in
  bool_decide (n = 9 ∨ n = 10 ∨ n = 11 ∨ n = 12 ∨ n = 13 ∨ n = 32 ∨ n = 160)%nat.

(** Value of a code unit as a digit of a radix up to 36, as [parseInt]
    reads it. *)
Definition digit_value (c : ascii) : option Z :=
  let n := Z.of_nat (nat_of_ascii c) in
  if bool_decide (48 ≤ n ≤ 57) then Some (n - 48)
  else if bool_decide (97 ≤ n ≤ 122) then Some (n - 97 + 10)
  else if bool_decide (65 ≤ n ≤ 90) then Some (n - 65 + 10)
  else None.

Definition digit_in (radix : Z) (c : ascii) : option Z :=
  match digit_value c with
  | Some d => if bool_decide (d < radix) then Some d else None
  | None => None
  end.

Fixpoint drop_while (p : ascii → bool) (s : string) : string :=
  match s with
  | "" => ""
  | String c t => if p c then drop_while p t else s
  end.

Fixpoint take_while (p : ascii → bool) (s : string) : string :=
  match s with
  | "" => ""
  | String c t => if p c then String c (take_while p t) else ""
  end.

(** Reads the longest prefix of radix-[radix] digits; [acc] is the value of
    the digits read so far and [seen] tells whether there was one. *)
Fixpoint read_digits (radix : Z) (s : string) (acc : Z) (seen : bool)
  : option Z :=
  match s with
  | "" => if seen then Some acc else None
  | String c t =>
      match digit_in radix c with
      | Some d => read_digits radix t (acc * radix + d) true
      | None => if seen then Some acc else None
      end
  end.

(** [parseInt(string)] with no radix argument; [None] is [NaN].  The result
    is the exact integer (the rounding of values beyond 2^53 is not
    modelled). *)
Definition parseInt (input : string) : option Z :=
  let s := drop_while is_whitespace input in
  let '(sign, s) :=
    match s with
    | String "-" t => (-1, t)
    | String "+" t => (1, t)
    | _ => (1, s)
    end in
  let '(radix, s) :=
    match s with
    | String "0" (String "x" t) => (16, t)
    | String "0" (String "X" t) => (16, t)
    | _ => (10, s)
    end in
  match read_digits radix s 0 false with
  | Some n => Some (sign * n)
  | None => None
  end.

(** [s] starts with [p]: the rest of [s]. *)
Fixpoint strip_prefix (p s : string) : option string :=
  match p, s with
  | "", _ => Some s
  | String a p', String b s' =>
      if is_char a b then strip_prefix p' s' else None
  | String _ _, "" => None
  end.

(** The regular expression literal [/#slide(\\d+)/] of
    [handleHashNavigation].  Inside a regular expression literal [\\] is an
    escaped backslash, so the group is a backslash followed by one or more
    letters [d] (greedy).  [slide_regex_at s] matches the expression at the
    start of [s] and returns the text of group 1. *)
Definition slide_regex_at (s : string) : option string :=
  match strip_prefix "#slide" s with
  | Some (String c rest) =>
      if is_char c backslash then
        match take_while (is_char "d") rest with
        | "" => None
        | ds => Some (String backslash ds)
        end
      else None
  | _ => None
  end.

(** [hash.match(/#slide(\\d+)/)]: the leftmost match, searched from each
    start index in turn; the result is [slideMatch[1]], [None] for [null]. *)
Fixpoint slide_regex_match (s : string) : option string :=
  match slide_regex_at s with
  | Some g => Some g
  | None =>
      match s with
      | "" => None
      | String _ t => slide_regex_match t
      end
  end.

End Js.

(** ** Data model *)

(** A [.slide] element: the two classes the controller toggles, its
    [aria-hidden] attribute and the text of its first [h1]/[h2] descendant
    ([None]: no such heading). *)
Record Slide := mkSlide {
  active : bool;
  prev : bool;
  ariaHidden : option string;
  heading : option string
}.

(** The four spellings browsers use for one fullscreen member
    (standard, webkit, moz, ms): which of them are present (truthy). *)
Record Vendors := mkVendors {
  standard : bool;
  webkit : bool;
  moz : bool;
  ms : bool
}.

Inductive Vendor := Standard | Webkit | Moz | Ms.

(** The fields of [PresentationController]. *)
Record Controller := mkController {
  currentSlide : Z;
  totalSlides : Z;
  isFullscreen : bool;
  isPresentationMode : bool;
  soundEnabled : bool;
  touchStartX : Z;
  touchEndX : Z;
  cursorTimeout : option nat;
  isLoaded : bool
}.

(** The part of the document and window the controller reads and writes.
    [progressWidth = Some (c, t)] is the inline width [c / t * 100] percent of
    [.progress-fill]; an announcement is a live region appended to the body,
    with the text it carries.  The elements the constructor fetches once
    ([#presentation], [.progress-fill], [#sound-toggle] with its icon,
    [#loading-screen] and [.particles-container]) are taken to be there, as
    the code takes them to be: a page is any list of slides and of dots
    around these elements, and the [TypeError] of a page that lacks one of
    them is outside the model. *)
Record Page := mkPage {
  slides : list Slide;
  navDots : list bool;
  progressWidth : option (Z * Z);
  fullscreenClass : bool;
  presentationModeClass : bool;
  mutedClass : bool;
  iconClassName : string;
  loadingHiddenClass : bool;
  loadingDisplayNone : bool;
  locationHash : string;
  announcements : list (nat * string);
  particles : nat
}.

(** Callbacks handed to [setTimeout], with the variables they close over. *)
Inductive Task :=
  | LoadDone
  | LoadingRemoved
  | SlideEnter (previousSlide : Z)
  | SlideCleanup (previousSlide : Z)
  | CursorHide
  | AnnouncementRemove (node : nat)
  | ResizeLater.

Record Timer := mkTimer {
  timerId : nat;
  timerDelay : Z;
  timerTask : Task
}.

(** What the controller does to the outside and that leaves no trace in
    [Page]: the reveal animations (the inline styles of the descendants of a
    slide, with the timers that stagger them and write nothing else), audio,
    the console, the fullscreen requests and [history.replaceState]. *)
Inductive Effect :=
  | PreventDefault
  | ReplaceState (hash : string)
  | ResetAnimations (slideNumber : Z)
  | AnimateComponents (slideNumber : Z)
  | AnimateDescription (slideNumber : Z)
  | AnimateArchitecture (slideNumber : Z)
  | AnimateTechnologies (slideNumber : Z)
  | PlayTone
  | ConsoleLog (message : string)
  | RequestFullscreen (v : Vendor)
  | ExitFullscreen (v : Vendor).

(** The browser: the document's fullscreen element, the fullscreen and audio
    interfaces it offers, the pending timers (ids are positive) and the
    effects so far, oldest first. *)
Record Browser := mkBrowser {
  fullscreenElement : Vendors;
  requestFullscreenApi : Vendors;
  exitFullscreenApi : Vendors;
  audioContext : bool;
  timers : list Timer;
  nextTimer : nat;
  trace : list Effect
}.

Record State := mkState {
  this : Controller;
  page : Page;
  browser : Browser
}.

(** *** Field updates *)

Definition set_currentSlide (v : Z) (c : Controller) : Controller :=
  mkController v (totalSlides c) (isFullscreen c) (isPresentationMode c)
    (soundEnabled c) (touchStartX c) (touchEndX c) (cursorTimeout c)
    (isLoaded c).

Definition set_isFullscreen (v : bool) (c : Controller) : Controller :=
  mkController (currentSlide c) (totalSlides c) v (isPresentationMode c)
    (soundEnabled c) (touchStartX c) (touchEndX c) (cursorTimeout c)
    (isLoaded c).

Definition set_isPresentationMode (v : bool) (c : Controller) : Controller :=
  mkController (currentSlide c) (totalSlides c) (isFullscreen c) v
    (soundEnabled c) (touchStartX c) (touchEndX c) (cursorTimeout c)
    (isLoaded c).

Definition set_soundEnabled (v : bool) (c : Controller) : Controller :=
  mkController (currentSlide c) (totalSlides c) (isFullscreen c)
    (isPresentationMode c) v (touchStartX c) (touchEndX c) (cursorTimeout c)
    (isLoaded c).

Definition set_touchStartX (v : Z) (c : Controller) : Controller :=
  mkController (currentSlide c) (totalSlides c) (isFullscreen c)
    (isPresentationMode c) (soundEnabled c) v (touchEndX c) (cursorTimeout c)
    (isLoaded c).

Definition set_touchEndX (v : Z) (c : Controller) : Controller :=
  mkController (currentSlide c) (totalSlides c) (isFullscreen c)
    (isPresentationMode c) (soundEnabled c) (touchStartX c) v
    (cursorTimeout c) (isLoaded c).

Definition set_cursorTimeout (v : option nat) (c : Controller) : Controller :=
  mkController (currentSlide c) (totalSlides c) (isFullscreen c)
    (isPresentationMode c) (soundEnabled c) (touchStartX c) (touchEndX c) v
    (isLoaded c).

Definition set_isLoaded (v : bool) (c : Controller) : Controller :=
  mkController (currentSlide c) (totalSlides c) (isFullscreen c)
    (isPresentationMode c) (soundEnabled c) (touchStartX c) (touchEndX c)
    (cursorTimeout c) v.

Definition set_slides (v : list Slide) (p : Page) : Page :=
  mkPage v (navDots p) (progressWidth p) (fullscreenClass p)
    (presentationModeClass p) (mutedClass p) (iconClassName p)
    (loadingHiddenClass p) (loadingDisplayNone p) (locationHash p)
    (announcements p) (particles p).

Definition set_navDots (v : list bool) (p : Page) : Page :=
  mkPage (slides p) v (progressWidth p) (fullscreenClass p)
    (presentationModeClass p) (mutedClass p) (iconClassName p)
    (loadingHiddenClass p) (loadingDisplayNone p) (locationHash p)
    (announcements p) (particles p).

Definition set_progressWidth (v : option (Z * Z)) (p : Page) : Page :=
  mkPage (slides p) (navDots p) v (fullscreenClass p)
    (presentationModeClass p) (mutedClass p) (iconClassName p)
    (loadingHiddenClass p) (loadingDisplayNone p) (locationHash p)
    (announcements p) (particles p).

Definition set_fullscreenClass (v : bool) (p : Page) : Page :=
  mkPage (slides p) (navDots p) (progressWidth p) v
    (presentationModeClass p) (mutedClass p) (iconClassName p)
    (loadingHiddenClass p) (loadingDisplayNone p) (locationHash p)
    (announcements p) (particles p).

Definition set_presentationModeClass (v : bool) (p : Page) : Page :=
  mkPage (slides p) (navDots p) (progressWidth p) (fullscreenClass p) v
    (mutedClass p) (iconClassName p) (loadingHiddenClass p)
    (loadingDisplayNone p) (locationHash p) (announcements p) (particles p).

Definition set_mutedClass (v : bool) (p : Page) : Page :=
  mkPage (slides p) (navDots p) (progressWidth p) (fullscreenClass p)
    (presentationModeClass p) v (iconClassName p) (loadingHiddenClass p)
    (loadingDisplayNone p) (locationHash p) (announcements p) (particles p).

Definition set_iconClassName (v : string) (p : Page) : Page :=
  mkPage (slides p) (navDots p) (progressWidth p) (fullscreenClass p)
    (presentationModeClass p) (mutedClass p) v (loadingHiddenClass p)
    (loadingDisplayNone p) (locationHash p) (announcements p) (particles p).

Definition set_loadingHiddenClass (v : bool) (p : Page) : Page :=
  mkPage (slides p) (navDots p) (progressWidth p) (fullscreenClass p)
    (presentationModeClass p) (mutedClass p) (iconClassName p) v
    (loadingDisplayNone p) (locationHash p) (announcements p) (particles p).

Definition set_loadingDisplayNone (v : bool) (p : Page) : Page :=
  mkPage (slides p) (navDots p) (progressWidth p) (fullscreenClass p)
    (presentationModeClass p) (mutedClass p) (iconClassName p)
    (loadingHiddenClass p) v (locationHash p) (announcements p) (particles p).

Definition set_locationHash (v : string) (p : Page) : Page :=
  mkPage (slides p) (navDots p) (progressWidth p) (fullscreenClass p)
    (presentationModeClass p) (mutedClass p) (iconClassName p)
    (loadingHiddenClass p) (loadingDisplayNone p) v (announcements p)
    (particles p).

Definition set_announcements (v : list (nat * string)) (p : Page) : Page :=
  mkPage (slides p) (navDots p) (progressWidth p) (fullscreenClass p)
    (presentationModeClass p) (mutedClass p) (iconClassName p)
    (loadingHiddenClass p) (loadingDisplayNone p) (locationHash p) v
    (particles p).

Definition set_particles (v : nat) (p : Page) : Page :=
  mkPage (slides p) (navDots p) (progressWidth p) (fullscreenClass p)
    (presentationModeClass p) (mutedClass p) (iconClassName p)
    (loadingHiddenClass p) (loadingDisplayNone p) (locationHash p)
    (announcements p) v.

Definition set_fullscreenElement (v : Vendors) (b : Browser) : Browser :=
  mkBrowser v (requestFullscreenApi b) (exitFullscreenApi b) (audioContext b)
    (timers b) (nextTimer b) (trace b).

Definition set_timers (v : list Timer) (b : Browser) : Browser :=
  mkBrowser (fullscreenElement b) (requestFullscreenApi b)
    (exitFullscreenApi b) (audioContext b) v (nextTimer b) (trace b).

Definition set_nextTimer (v : nat) (b : Browser) : Browser :=
  mkBrowser (fullscreenElement b) (requestFullscreenApi b)
    (exitFullscreenApi b) (audioContext b) (timers b) v (trace b).

Definition set_trace (v : list Effect) (b : Browser) : Browser :=
  mkBrowser (fullscreenElement b) (requestFullscreenApi b)
    (exitFullscreenApi b) (audioContext b) (timers b) (nextTimer b) v.

Definition on_this (f : Controller → Controller) (s : State) : State :=
  mkState (f (this s)) (page s) (browser s).

Definition on_page (f : Page → Page) (s : State) : State :=
  mkState (this s) (f (page s)) (browser s).

Definition on_browser (f : Browser → Browser) (s : State) : State :=
  mkState (this s) (page s) (f (browser s)).

(** ** The monad: state, and exceptions that keep the state *)

Inductive Res (A : Type) :=
  | Ok (a : A) (s : State)
  | Throw (s : State).
Arguments Ok {A} a s.
Arguments Throw {A} s.

Definition M (A : Type) : Type := State → Res A.

Definition final {A} (r : Res A) : State :=
  match r with
  | Ok _ s => s
  | Throw s => s
  end.

#[global] Instance M_ret : MRet M := λ A a s, Ok a s.

#[global] Instance M_bind : MBind M := λ A B f m s,
  match m s with
  | Ok a s' => f a s'
  | Throw s' => Throw s'
  end.

Definition gets {A} (f : State → A) : M A := λ s, Ok (f s) s.
Definition modify (f : State → State) : M unit := λ s, Ok () (f s).
Definition throw {A} : M A := λ s, Throw s.
Definition when (b : bool) (m : M unit) : M unit := if b then m else mret ().

Definition emit (e : Effect) : M unit :=
  modify (on_browser (λ b, set_trace (trace b ++ [e]) b)).

(** ** Browser primitives *)

(** [setTimeout(task, delay)]: a fresh positive id. *)
Definition setTimeout (task : Task) (delay : Z) : M nat := λ s,
  let id := nextTimer (browser s) in
  Ok id (on_browser (λ b,
           set_nextTimer (S id) (set_timers (timers b ++ [mkTimer id delay task]) b)) s).

(** [clearTimeout(id)]: forgets the pending timer [id], if there is one. *)
Definition clearTimeout (id : nat) : M unit :=
  modify (on_browser (λ b,
    set_timers (filter (λ t, timerId t ≠ id) (timers b)) b)).

(** [this.slides[k]] followed by a property access: a [TypeError] when the
    index is outside the list. *)
Definition slide_at (k : Z) : M Slide := λ s,
  if bool_decide (0 ≤ k) then
    match slides (page s) !! Z.to_nat k with
    | Some sl => Ok sl s
    | None => Throw s
    end
  else Throw s.

(** Changes the class list of [this.slides[k]]. *)
Definition update_slide (k : Z) (f : Slide → Slide) : M unit :=
  _ ← slide_at k;
  modify (on_page (λ p, set_slides (alter f (Z.to_nat k) (slides p)) p)).

Definition set_active (v : bool) (sl : Slide) : Slide :=
  mkSlide v (prev sl) (ariaHidden sl) (heading sl).
Definition set_prev (v : bool) (sl : Slide) : Slide :=
  mkSlide (active sl) v (ariaHidden sl) (heading sl).
Definition set_ariaHidden (v : option string) (sl : Slide) : Slide :=
  mkSlide (active sl) (prev sl) v (heading sl).

(** The class changes of a transition: the slide left gets [prev] for
    [active], the slide entered gets [active] and loses [prev]. *)
Definition leave (sl : Slide) : Slide := set_prev true (set_active false sl).
Definition enter (sl : Slide) : Slide := set_prev false (set_active true sl).

(** [setAttribute] turns the boolean into its string. *)
Definition string_of_bool (b : bool) : string :=
  if b then "true" else "false".

Definition any_vendor (v : Vendors) : bool :=
  standard v || webkit v || moz v || ms v.

(** The first spelling present, in the order of the [if]/[else if] chains. *)
Definition first_vendor (v : Vendors) : option Vendor :=
  if standard v then Some Standard
  else if webkit v then Some Webkit
  else if moz v then Some Moz
  else if ms v then Some Ms
  else None.

(** ** The methods of [PresentationController] *)

Definition updateProgress : M unit :=
  modify (λ s, on_page (set_progressWidth
    (Some (currentSlide (this s), totalSlides (this s)))) s).

Definition updateNavDots : M unit :=
  modify (λ s, on_page (λ p, set_navDots
    (imap (λ index _, bool_decide (Z.of_nat index + 1 = currentSlide (this s)))
       (navDots p)) p) s).

Definition updateURL : M unit :=
  cur ← gets (λ s, currentSlide (this s));
  hash ← gets (λ s, locationHash (page s));
  let newHash := "#slide" +:+ pretty cur in
  if bool_decide (hash ≠ newHash) then
    modify (on_page (set_locationHash newHash));;
    emit (ReplaceState newHash)
  else mret ().

Definition triggerSlideAnimations (slideNumber : Z) : M unit :=
  _ ← slide_at (slideNumber - 1);
  emit (ResetAnimations slideNumber);;
  if bool_decide (slideNumber = 2) then emit (AnimateComponents slideNumber)
  else if bool_decide (slideNumber = 3) then emit (AnimateDescription slideNumber)
  else if bool_decide (slideNumber = 4) then emit (AnimateArchitecture slideNumber)
  else if bool_decide (slideNumber = 5) then emit (AnimateTechnologies slideNumber)
  else mret ().

Definition playTransitionSound : M unit :=
  enabled ← gets (λ s, soundEnabled (this s));
  if negb enabled then mret ()
  else
    supported ← gets (λ s, audioContext (browser s));
    if (supported : bool) then emit PlayTone
    else emit (ConsoleLog "Audio context not supported").

Definition announceSlideChange : M unit :=
  cur ← gets (λ s, currentSlide (this s));
  total ← gets (λ s, totalSlides (this s));
  node ← gets (λ s, nextTimer (browser s));
  modify (on_page (λ p, set_announcements
    (announcements p ++ [(node, "Slide " +:+ pretty cur +:+ " of " +:+ pretty total)]) p));;
  _ ← setTimeout (AnnouncementRemove node) 1000;
  mret ().

(** The method [goToSlide] as the class declares it. *)
Definition goToSlide_method (slideNumber : Z) : M unit :=
  cur ← gets (λ s, currentSlide (this s));
  total ← gets (λ s, totalSlides (this s));
  if bool_decide (slideNumber < 1) || bool_decide (slideNumber > total)
     || bool_decide (slideNumber = cur)
  then mret ()
  else
    update_slide (cur - 1) leave;;
    let previousSlide := cur in
    modify (on_this (set_currentSlide slideNumber));;
    _ ← setTimeout (SlideEnter previousSlide) 50;
    updateProgress;;
    updateNavDots;;
    updateURL;;
    now ← gets (λ s, currentSlide (this s));
    triggerSlideAnimations now;;
    playTransitionSound;;
    announceSlideChange.

(** The [forEach] of [setupAccessibility]. *)
Definition updateAriaHidden : M unit :=
  modify (λ s, on_page (λ p, set_slides
    (imap (λ index sl,
       set_ariaHidden
         (Some (string_of_bool (bool_decide (Z.of_nat index + 1 ≠ currentSlide (this s)))))
         sl)
       (slides p)) p) s).

(** [this.goToSlide] once [setupAccessibility] has replaced it, which the
    constructor does before any listener can run: every call of
    [goToSlide], from inside the class or from outside, is this one. *)
Definition goToSlide (slideNumber : Z) : M unit :=
  goToSlide_method slideNumber;;
  updateAriaHidden.

Definition nextSlide : M unit :=
  cur ← gets (λ s, currentSlide (this s));
  total ← gets (λ s, totalSlides (this s));
  if bool_decide (cur < total) then goToSlide (cur + 1) else mret ().

Definition previousSlide : M unit :=
  cur ← gets (λ s, currentSlide (this s));
  if bool_decide (cur > 1) then goToSlide (cur - 1) else mret ().

Definition handleSwipe : M unit :=
  let swipeThreshold := 50 in
  touchEnd ← gets (λ s, touchEndX (this s));
  touchStart ← gets (λ s, touchStartX (this s));
  let swipeDistance := touchEnd - touchStart in
  if bool_decide (Z.abs swipeDistance > swipeThreshold) then
    if bool_decide (swipeDistance > 0) then previousSlide else nextSlide
  else mret ().

Definition handleTouchStart (screenX : Z) : M unit :=
  loaded ← gets (λ s, isLoaded (this s));
  if negb loaded then mret ()
  else
    modify (on_this (set_touchStartX screenX));;
    touchStart ← gets (λ s, touchStartX (this s));
    when (bool_decide (Z.abs (screenX - touchStart) > 10)) (emit PreventDefault).

Definition handleTouchEnd (screenX : Z) : M unit :=
  loaded ← gets (λ s, isLoaded (this s));
  if negb loaded then mret ()
  else
    modify (on_this (set_touchEndX screenX));;
    handleSwipe.

Definition handleHashNavigation : M unit :=
  hash ← gets (λ s, locationHash (page s));
  match Js.slide_regex_match hash with
  | Some group =>
      total ← gets (λ s, totalSlides (this s));
      match Js.parseInt group with
      | Some slideNumber =>
          if bool_decide (slideNumber >= 1) && bool_decide (slideNumber <= total)
          then goToSlide slideNumber
          else mret ()
      | None => mret ()
      end
  | None => mret ()
  end.

Definition enterFullscreen : M unit :=
  api ← gets (λ s, requestFullscreenApi (browser s));
  match first_vendor api with
  | Some v => emit (RequestFullscreen v)
  | None => mret ()
  end.

Definition exitFullscreen : M unit :=
  api ← gets (λ s, exitFullscreenApi (browser s));
  match first_vendor api with
  | Some v => emit (ExitFullscreen v)
  | None => mret ()
  end.

Definition toggleFullscreen : M unit :=
  fs ← gets (λ s, isFullscreen (this s));
  if negb fs then enterFullscreen else exitFullscreen.

(** [if (this.cursorTimeout)]: [null] and the id 0 are falsy. *)
Definition clearCursorTimeout : M unit :=
  pending ← gets (λ s, cursorTimeout (this s));
  match pending with
  | Some id =>
      if bool_decide (id ≠ 0%nat) then
        clearTimeout id;;
        modify (on_this (set_cursorTimeout None))
      else mret ()
  | None => mret ()
  end.

Definition startCursorTimeout : M unit :=
  clearCursorTimeout;;
  id ← setTimeout CursorHide 3000;
  modify (on_this (set_cursorTimeout (Some id))).

Definition enterPresentationMode : M unit :=
  modify (on_this (set_isPresentationMode true));;
  modify (on_page (set_presentationModeClass true));;
  startCursorTimeout.

Definition exitPresentationMode : M unit :=
  modify (on_this (set_isPresentationMode false));;
  modify (on_page (set_presentationModeClass false));;
  clearCursorTimeout.

Definition togglePresentationMode : M unit :=
  mode ← gets (λ s, isPresentationMode (this s));
  if negb mode then enterPresentationMode else exitPresentationMode.

Definition handleFullscreenChange : M unit :=
  modify (λ s, on_this (set_isFullscreen
    (any_vendor (fullscreenElement (browser s)))) s);;
  modify (λ s, on_page (set_fullscreenClass (isFullscreen (this s))) s);;
  fs ← gets (λ s, isFullscreen (this s));
  if (fs : bool) then enterPresentationMode else mret ().

Definition handleMouseMove : M unit :=
  mode ← gets (λ s, isPresentationMode (this s));
  if (mode : bool) then
    modify (on_page (set_presentationModeClass false));;
    startCursorTimeout
  else mret ().

Definition toggleSound : M unit :=
  modify (λ s, on_this (set_soundEnabled (negb (soundEnabled (this s)))) s);;
  modify (λ s, on_page (set_mutedClass (negb (soundEnabled (this s)))) s);;
  modify (λ s, on_page (set_iconClassName
    (if soundEnabled (this s) then "fas fa-volume-up" else "fas fa-volume-mute")) s).

(** [debounce] makes a new closure at every call: the timer of one call
    never cancels the timer of another, and the debounced function is
    empty. *)
Definition handleResize : M unit :=
  _ ← setTimeout ResizeLater 250;
  mret ().

Definition is_key (key : string) (keys : list string) : bool :=
  bool_decide (key ∈ keys).

Definition handleKeyDown (key : string) : M unit :=
  loaded ← gets (λ s, isLoaded (this s));
  if negb loaded then mret ()
  else if is_key key ["ArrowRight"; " "; "PageDown"] then
    emit PreventDefault;; nextSlide
  else if is_key key ["ArrowLeft"; "PageUp"] then
    emit PreventDefault;; previousSlide
  else if is_key key ["Home"] then
    emit PreventDefault;; goToSlide 1
  else if is_key key ["End"] then
    emit PreventDefault;;
    total ← gets (λ s, totalSlides (this s));
    goToSlide total
  else if is_key key ["f"; "F"] then
    emit PreventDefault;; toggleFullscreen
  else if is_key key ["Escape"] then
    emit PreventDefault;;
    fs ← gets (λ s, isFullscreen (this s));
    when fs exitFullscreen;;
    exitPresentationMode
  else if is_key key ["p"; "P"] then
    emit PreventDefault;; togglePresentationMode
  else if is_key key ["1"; "2"; "3"; "4"; "5"; "6"; "7"] then
    emit PreventDefault;;
    total ← gets (λ s, totalSlides (this s));
    match Js.parseInt key with
    | Some slideNum =>
        if bool_decide (slideNum <= total) then goToSlide slideNum else mret ()
    | None => mret ()
    end
  else mret ().

(** The record [getCurrentSlideInfo] returns. *)
Record SlideInfo := mkSlideInfo {
  current : Z;
  total : Z;
  title : string;
  infoIsFullscreen : bool;
  infoIsPresentationMode : bool
}.

Definition getCurrentSlideInfo : M SlideInfo :=
  cur ← gets (λ s, currentSlide (this s));
  sl ← slide_at (cur - 1);
  match heading sl with
  | Some text =>
      c ← gets this;
      mret (mkSlideInfo (currentSlide c) (totalSlides c) text
              (isFullscreen c) (isPresentationMode c))
  | None => throw
  end.

(** ** Timers *)

(** What each callback does when its timer fires. *)
Definition runTask (t : Task) : M unit :=
  match t with
  | LoadDone =>
      modify (on_page (set_loadingHiddenClass true));;
      modify (on_this (set_isLoaded true));;
      _ ← setTimeout LoadingRemoved 800;
      handleHashNavigation;;
      cur ← gets (λ s, currentSlide (this s));
      triggerSlideAnimations cur
  | LoadingRemoved =>
      modify (on_page (set_loadingDisplayNone true))
  | SlideEnter previousSlide =>
      cur ← gets (λ s, currentSlide (this s));
      update_slide (cur - 1) enter;;
      _ ← setTimeout (SlideCleanup previousSlide) 800;
      mret ()
  | SlideCleanup previousSlide =>
      update_slide (previousSlide - 1) (set_prev false)
  | CursorHide =>
      mode ← gets (λ s, isPresentationMode (this s));
      if (mode : bool) then modify (on_page (set_presentationModeClass true))
      else mret ()
  | AnnouncementRemove node =>
      modify (on_page (λ p, set_announcements
        (filter (λ a, a.1 ≠ node) (announcements p)) p))
  | ResizeLater => mret ()
  end.

(** The pending timer [id] fires: it leaves the pending list and its
    callback runs.  Any pending timer may be the next to fire: the order the
    delays impose is not modelled. *)
Definition fireTimer (id : nat) : M unit :=
  pending ← gets (λ s, timers (browser s));
  match list_find (λ t, timerId t = id) pending with
  | Some (_, t) => clearTimeout id;; runTask (timerTask t)
  | None => mret ()
  end.

(** ** Events and calls *)

(** The events [setupEventListeners] listens to, with what the handlers read
    from them; [HashChange] and [FullscreenChange] carry the new fragment
    and the new fullscreen element the browser reports. *)
Inductive Event :=
  | KeyDown (key : string)
  | TouchStart (screenX : Z)
  | TouchEnd (screenX : Z)
  | TouchMove (touches : nat)
  | DotClick (index : nat)
  | SoundToggleClick
  | MouseMove
  | Resize
  | HashChange (hash : string)
  | FullscreenChange (element : Vendors)
  | TimerFires (id : nat).

Definition dispatch (e : Event) : M unit :=
  match e with
  | KeyDown key => handleKeyDown key
  | TouchStart screenX => handleTouchStart screenX
  | TouchEnd screenX => handleTouchEnd screenX
  | TouchMove touches =>
      when (bool_decide (1 < touches)%nat) (emit PreventDefault)
  | DotClick index =>
      dots ← gets (λ s, navDots (page s));
      if bool_decide (index < length dots)%nat
      then goToSlide (Z.of_nat index + 1)
      else mret ()
  | SoundToggleClick => toggleSound
  | MouseMove => handleMouseMove
  | Resize => handleResize
  | HashChange hash =>
      modify (on_page (set_locationHash hash));;
      handleHashNavigation
  | FullscreenChange element =>
      modify (on_browser (set_fullscreenElement element));;
      handleFullscreenChange
  | TimerFires id => fireTimer id
  end.

(** Direct calls of the methods of the controller object, with integer
    arguments. *)
Inductive Call :=
  | CallGoToSlide (slideNumber : Z)
  | CallNextSlide
  | CallPreviousSlide
  | CallHandleSwipe
  | CallHandleHashNavigation
  | CallHandleKeyDown (key : string)
  | CallHandleTouchStart (screenX : Z)
  | CallHandleTouchEnd (screenX : Z)
  | CallToggleFullscreen
  | CallEnterFullscreen
  | CallExitFullscreen
  | CallHandleFullscreenChange
  | CallTogglePresentationMode
  | CallEnterPresentationMode
  | CallExitPresentationMode
  | CallHandleMouseMove
  | CallStartCursorTimeout
  | CallClearCursorTimeout
  | CallToggleSound
  | CallPlayTransitionSound
  | CallTriggerSlideAnimations (slideNumber : Z)
  | CallUpdateProgress
  | CallUpdateNavDots
  | CallUpdateURL
  | CallAnnounceSlideChange
  | CallHandleResize.

Definition call (c : Call) : M unit :=
  match c with
  | CallGoToSlide slideNumber => goToSlide slideNumber
  | CallNextSlide => nextSlide
  | CallPreviousSlide => previousSlide
  | CallHandleSwipe => handleSwipe
  | CallHandleHashNavigation => handleHashNavigation
  | CallHandleKeyDown key => handleKeyDown key
  | CallHandleTouchStart screenX => handleTouchStart screenX
  | CallHandleTouchEnd screenX => handleTouchEnd screenX
  | CallToggleFullscreen => toggleFullscreen
  | CallEnterFullscreen => enterFullscreen
  | CallExitFullscreen => exitFullscreen
  | CallHandleFullscreenChange => handleFullscreenChange
  | CallTogglePresentationMode => togglePresentationMode
  | CallEnterPresentationMode => enterPresentationMode
  | CallExitPresentationMode => exitPresentationMode
  | CallHandleMouseMove => handleMouseMove
  | CallStartCursorTimeout => startCursorTimeout
  | CallClearCursorTimeout => clearCursorTimeout
  | CallToggleSound => toggleSound
  | CallPlayTransitionSound => playTransitionSound
  | CallTriggerSlideAnimations slideNumber => triggerSlideAnimations slideNumber
  | CallUpdateProgress => updateProgress
  | CallUpdateNavDots => updateNavDots
  | CallUpdateURL => updateURL
  | CallAnnounceSlideChange => announceSlideChange
  | CallHandleResize => handleResize
  end.

Inductive Op :=
  | OnEvent (e : Event)
  | OnCall (c : Call).

Definition step (o : Op) : M unit :=
  match o with
  | OnEvent e => dispatch e
  | OnCall c => call c
  end.

(** Runs a sequence of operations; an exception ends one operation, not the
    page: the next one starts from the state it left. *)
Fixpoint run (ops : list Op) (s : State) : State :=
  match ops with
  | [] => s
  | o :: rest => run rest (final (step o s))
  end.

(** ** Construction *)

(** Twenty particles are appended; their random styles are not part of the
    state. *)
Definition setupParticles : M unit :=
  modify (on_page (λ p, set_particles (particles p + 20)%nat p)).

Definition handleInitialLoad : M unit :=
  _ ← setTimeout LoadDone 2500;
  mret ().

(** Sets [aria-hidden] on every slide; the replacement of [this.goToSlide]
    it installs is [goToSlide] above. *)
Definition setupAccessibility : M unit :=
  updateAriaHidden.

(** [setupEventListeners] only registers the handlers that [dispatch] runs. *)
Definition init : M unit :=
  updateProgress;;
  updateNavDots;;
  setupParticles;;
  handleInitialLoad;;
  setupAccessibility.

(** [new PresentationController()] on the page [markup] in the browser [b]. *)
Definition constructor (markup : Page) (b : Browser) : Res unit :=
  init (mkState (mkController 1 7 false false true 0 0 None false) markup b).

(** ** A sample page *)

Definition sample_slide (text : string) (shown : bool) : Slide :=
  mkSlide shown false None (Some text).

Definition sample_markup : Page :=
  mkPage
    [sample_slide "AI Agents" true; sample_slide "Components" false;
     sample_slide "ETL" false; sample_slide "Architecture" false;
     sample_slide "Technologies" false; sample_slide "Demo" false;
     sample_slide "Thanks" false]
    [true; false; false; false; false; false; false]
    None false false false "fas fa-volume-up" false false "" [] 0.

Definition all_vendors : Vendors := mkVendors true true true true.
Definition no_vendor : Vendors := mkVendors false false false false.

Definition sample_browser : Browser :=
  mkBrowser no_vendor all_vendors all_vendors true [] 1 [].

Definition sample_initial : State := final (constructor sample_markup sample_browser).

(** The sample page once the loading timer (id 1) has fired. *)
Definition sample_loaded : State := run [OnEvent (TimerFires 1)] sample_initial.

(** The sample page, loaded, showing slide 1, with the fragment [#slide4]. *)
Definition sample_at_slide4_hash : State :=
  on_page (set_locationHash "#slide4") sample_loaded.

(** The sample page showing slide 7. *)
Definition sample_last : State :=
  run [OnCall (CallGoToSlide 7)] sample_loaded.

(** The sample page on slide 1 with a touch that went from [startX] to
    [endX]. *)
Definition sample_touch (startX endX : Z) : State :=
  on_this (λ c, set_touchEndX endX (set_touchStartX startX c)) sample_loaded.

(** The sample page when the browser has just entered fullscreen. *)
Definition sample_fullscreen : State :=
  on_browser (set_fullscreenElement (mkVendors true false false false))
    sample_loaded.

(** The sample page with a sound button that starts muted in the markup,
    freshly constructed, and the same after two calls of [toggleSound]. *)
Definition sample_muted_start : State :=
  final (constructor
           (set_iconClassName "fas fa-volume-mute"
              (set_mutedClass true sample_markup))
           sample_browser).

Definition sample_muted_twice : State :=
  final ((toggleSound ;; toggleSound) sample_muted_start).

(** The sample page in fullscreen and in presentation mode, with its
    cursor-hide timer pending, when the browser has just left fullscreen. *)
Definition sample_leaving_fullscreen : State :=
  on_browser (set_fullscreenElement no_vendor)
    (run [OnEvent (FullscreenChange all_vendors)] sample_loaded).

(** A page with only the first three slides, freshly constructed. *)
Definition short_initial : State :=
  final (constructor (set_slides (take 3 (slides sample_markup)) sample_markup)
           sample_browser).

(** ** Properties of states and of runs *)

(** A property of states that every run of [m] keeps, whether it returns
    or throws. *)
Definition preserves (P : State → Prop) {A} (m : M A) : Prop :=
  ∀ s, P s → P (final (m s)).

(** [wp m s Q]: from [s], [m] returns (it does not throw) a value and a
    state that satisfy [Q]. *)
Definition wp {A} (m : M A) (s : State) (Q : A → State → Prop) : Prop :=
  match m s with
  | Ok a s' => Q a s'
  | Throw _ => False
  end.

(** The invariant of the navigation state: the deck has seven slides and the
    current one is one of them. *)
Definition in_range (s : State) : Prop :=
  totalSlides (this s) = 7 ∧ 1 ≤ currentSlide (this s) ≤ 7.

(** The page has the seven [.slide] elements, each with a heading. *)
Definition page_shape (s : State) : Prop :=
  length (slides (page s)) = 7%nat ∧
  ∀ i sl, slides (page s) !! i = Some sl → is_Some (heading sl).

(** Exactly the current slide carries [aria-hidden="false"]; every other
    slide carries [aria-hidden="true"]. *)
Definition aria_in_sync (s : State) : Prop :=
  ∀ i sl, slides (page s) !! i = Some sl →
    ariaHidden sl =
      Some (string_of_bool (bool_decide (Z.of_nat i + 1 ≠ currentSlide (this s)))).

(** The mute indicator (the class [muted] of the button and the class name
    of its icon) shows [soundEnabled]. *)
Definition indicator_in_sync (s : State) : Prop :=
  mutedClass (page s) = negb (soundEnabled (this s)) ∧
  iconClassName (page s) =
    (if soundEnabled (this s) then "fas fa-volume-up" else "fas fa-volume-mute").

(** What holds of the controller on the page it was written for. *)
Definition expected (s : State) : Prop :=
  in_range s ∧ page_shape s ∧ aria_in_sync s ∧ indicator_in_sync s.

(** The markup the controller was written for: seven slides with a heading
    each, and a sound button that shows sound as enabled. *)
Definition expected_markup (markup : Page) : Prop :=
  length (slides markup) = 7%nat ∧
  (∀ i sl, slides markup !! i = Some sl → is_Some (heading sl)) ∧
  mutedClass markup = false ∧
  iconClassName markup = "fas fa-volume-up".

(** Two slides that differ at most in their [aria-hidden] attribute. *)
Definition same_classes (sl sl' : Slide) : Prop :=
  active sl' = active sl ∧ prev sl' = prev sl ∧ heading sl' = heading sl.

(** Functions on a slide that only touch its class list. *)
Definition class_only (f : Slide → Slide) : Prop :=
  ∀ sl, ariaHidden (f sl) = ariaHidden sl ∧ heading (f sl) = heading sl.

(** What a navigation to [n] changes in the controller and in the slides;
    the mute indicator is kept. *)
Definition navigated (n : Z) (s s' : State) : Prop :=
  this s' = set_currentSlide n (this s) ∧
  slides (page s') =
    alter leave (Z.to_nat (currentSlide (this s) - 1)) (slides (page s)) ∧
  mutedClass (page s') = mutedClass (page s) ∧
  iconClassName (page s') = iconClassName (page s).

(** The events whose handlers test [isLoaded]. *)
Definition gated_event (e : Event) : bool :=
  match e with
  | KeyDown _ | TouchStart _ | TouchEnd _ => true
  | _ => false
  end.

(** ** Further properties of states *)

(** The progress bar shows the current slide over the total. *)
Definition progress_in_sync (s : State) : Prop :=
  progressWidth (page s) = Some (currentSlide (this s), totalSlides (this s)).

(** Exactly the dot of the current slide is highlighted. *)
Definition dots_in_sync (s : State) : Prop :=
  ∀ i d, navDots (page s) !! i = Some d →
    d = bool_decide (Z.of_nat i + 1 = currentSlide (this s)).

Definition chrome_in_sync (s : State) : Prop :=
  progress_in_sync s ∧ dots_in_sync s.

(** The effects of one navigation to slide [n] from [s], in the order they
    happen: the URL is replaced when the fragment is not yet the one of
    [n]; the animations of the slide are reset and its own reveal, if it has
    one, is started; a tone is attempted when sound is enabled. *)
Definition navigation_effects (n : Z) (s : State) : list Effect :=
  (if bool_decide (locationHash (page s) ≠ "#slide" +:+ pretty n)
   then [ReplaceState ("#slide" +:+ pretty n)] else []) ++
  [ResetAnimations n] ++
  (if bool_decide (n = 2) then [AnimateComponents n]
   else if bool_decide (n = 3) then [AnimateDescription n]
   else if bool_decide (n = 4) then [AnimateArchitecture n]
   else if bool_decide (n = 5) then [AnimateTechnologies n]
   else []) ++
  (if soundEnabled (this s)
   then [if audioContext (browser s) then PlayTone
         else ConsoleLog "Audio context not supported"]
   else []).

(** The state [s'] a navigation from [s] to [n] returns with. *)
Definition navigation_summary (n : Z) (s s' : State) : Prop :=
  let id := nextTimer (browser s) in
  let cur := currentSlide (this s) in
  this s' = set_currentSlide n (this s) ∧
  slides (page s') =
    imap (λ index sl,
            set_ariaHidden
              (Some (string_of_bool (bool_decide (Z.of_nat index + 1 ≠ n)))) sl)
      (alter leave (Z.to_nat (cur - 1)) (slides (page s))) ∧
  locationHash (page s') = "#slide" +:+ pretty n ∧
  announcements (page s') =
    (announcements (page s) ++
      [(S id, "Slide " +:+ pretty n +:+ " of " +:+ pretty (totalSlides (this s)))])%list ∧
  timers (browser s') =
    (timers (browser s) ++
      [mkTimer id 50 (SlideEnter cur);
       mkTimer (S id) 1000 (AnnouncementRemove (S id))])%list ∧
  nextTimer (browser s') = S (S id) ∧
  trace (browser s') = (trace (browser s) ++ navigation_effects n s)%list.

#[global] Instance Task_eq_dec : EqDecision Task.
Proof. solve_decision. Defined.

(** The pending timers with the callback [task]. *)
Definition pending (task : Task) (s : State) : list Timer :=
  filter (λ t, timerTask t = task) (timers (browser s)).

(** Timer ids are positive, below the next id to be handed out, and no two
    pending timers share one; announcements carry the id of the timer that
    removes them, so they are below the next id too. *)
Definition timers_fresh (s : State) : Prop :=
  (0 < nextTimer (browser s))%nat ∧
  Forall (λ t, (0 < timerId t < nextTimer (browser s))%nat) (timers (browser s)) ∧
  NoDup (timerId <$> timers (browser s)) ∧
  Forall (λ a, (a.1 < nextTimer (browser s))%nat) (announcements (page s)).

(** [this.cursorTimeout] is the id of any pending cursor-hide timer. *)
Definition cursor_timer_tracked (s : State) : Prop :=
  ∀ t, t ∈ timers (browser s) → timerTask t = CursorHide →
    cursorTimeout (this s) = Some (timerId t).

Definition cursor_inv (s : State) : Prop :=
  timers_fresh s ∧ cursor_timer_tracked s.

(** A page load: the browser has handed out no timer to this page yet and
    the markup holds no announcement. *)
Definition fresh_start (markup : Page) (b : Browser) : Prop :=
  timers b = [] ∧ (0 < nextTimer b)%nat ∧ announcements markup = [].

(** The cursor is hidden (the class [presentation-mode] is on) only in
    presentation mode. *)
Definition cursor_hidden_in_mode (s : State) : Prop :=
  presentationModeClass (page s) = true → isPresentationMode (this s) = true.

(** No transition is under way: the current slide is the active one and no
    slide is marked as leaving. *)
Definition settled (s : State) : Prop :=
  ∀ i sl, slides (page s) !! i = Some sl →
    active sl = bool_decide (Z.of_nat i + 1 = currentSlide (this s)) ∧
    prev sl = false.

(** A navigation to [n] followed by its two transition timers: the 50 ms
    one, whose id is the next id at the time of the call, and the 800 ms one
    it sets, two ids later (the announcement timer lies between). *)
Definition transition_run (n : Z) (s : State) : list Op :=
  [OnCall (CallGoToSlide n);
   OnEvent (TimerFires (nextTimer (browser s)));
   OnEvent (TimerFires (S (S (nextTimer (browser s)))))].

(** The keys [handleKeyDown] has a case for. *)
Definition handled_keys : list string :=
  ["ArrowRight"; " "; "PageDown"; "ArrowLeft"; "PageUp"; "Home"; "End";
   "f"; "F"; "Escape"; "p"; "P"; "1"; "2"; "3"; "4"; "5"; "6"; "7"].

(** The effects so far start with [pre]. *)
Definition trace_extends (pre : list Effect) (s : State) : Prop :=
  ∃ rest, trace (browser s) = (pre ++ rest)%list.

#[global] Instance Vendor_eq_dec : EqDecision Vendor.
Proof. solve_decision. Defined.

#[global] Instance Effect_eq_dec : EqDecision Effect.
Proof. solve_decision. Defined.

(** How many tones the effects hold. *)
Definition tones (effects : list Effect) : nat :=
  length (filter (λ e, e = PlayTone) effects).

(** Sound is off and [k] tones were played so far. *)
Definition muted_at (k : nat) (s : State) : Prop :=
  soundEnabled (this s) = false ∧ tones (trace (browser s)) = k.

(** The class [fullscreen] of the presentation shows [isFullscreen]. *)
Definition fullscreen_mirrored (s : State) : Prop :=
  fullscreenClass (page s) = isFullscreen (this s).

(** The operations that run [handleFullscreenChange]. *)
Definition is_fullscreen_change (o : Op) : bool :=
  match o with
  | OnEvent (FullscreenChange _) | OnCall CallHandleFullscreenChange => true
  | _ => false
  end.

(** The operations that run [toggleSound]. *)
Definition is_sound_toggle (o : Op) : bool :=
  match o with
  | OnEvent SoundToggleClick | OnCall CallToggleSound => true
  | _ => false
  end.

(** The operations that run a timer callback. *)
Definition is_timer (o : Op) : bool :=
  match o with
  | OnEvent (TimerFires _) => true
  | _ => false
  end.

(** The two timers of the load sequence, on a page load in browser [b]:
    the 2500 ms one set by the constructor and the 800 ms one it sets. *)
Definition load_run (b : Browser) : list Op :=
  [OnEvent (TimerFires (nextTimer b)); OnEvent (TimerFires (S (nextTimer b)))].

(** The events that cannot navigate: pointer, resize, the start and the
    moves of a touch, the sound button and the fullscreen notification. *)
Definition is_passive (e : Event) : bool :=
  match e with
  | MouseMove | Resize | TouchStart _ | TouchMove _ | SoundToggleClick
  | FullscreenChange _ => true
  | _ => false
  end.

(** * Proofs *)

(** ** The helpers on small inputs *)

Example parseInt_digit : Js.parseInt "4" = Some 4.
Proof. reflexivity. Qed.

Example parseInt_junk : Js.parseInt "12px" = Some 12.
Proof. reflexivity. Qed.

Example parseInt_hex : Js.parseInt "  -0x1F" = Some (-31).
Proof. reflexivity. Qed.

Example parseInt_nan : Js.parseInt "slide" = None.
Proof. reflexivity. Qed.

Example slide_regex_digits : Js.slide_regex_match "#slide4" = None.
Proof. reflexivity. Qed.

(** What the expression does match: a backslash and letters [d]. *)
Example slide_regex_backslash :
  Js.slide_regex_match (String.append "page#slide" (String Js.backslash "ddx"))
  = Some (String Js.backslash "dd").
Proof. reflexivity. Qed.

(** A navigation on the sample page: fragment, progress, dots,
    announcement and the pending transition. *)
Example goToSlide_sample :
  let s := final (goToSlide 4 sample_loaded) in
  currentSlide (this s) = 4 ∧
  locationHash (page s) = "#slide4" ∧
  progressWidth (page s) = Some (4, 7) ∧
  navDots (page s) = [false; false; false; true; false; false; false] ∧
  announcements (page s) = [(4%nat, "Slide 4 of 7")] ∧
  timerTask <$> timers (browser s)
    = [LoadingRemoved; SlideEnter 1; AnnouncementRemove 4] ∧
  trace (browser s)
    = [ResetAnimations 1; ReplaceState "#slide4"; ResetAnimations 4;
       AnimateArchitecture 4; PlayTone].
Proof. vm_compute. by repeat split. Qed.

(** Where the page lacks the slide, [goToSlide] throws once the current
    slide is already changed, and the attributes are not written. *)
Example goToSlide_short_page :
  ∃ s', goToSlide 5 short_initial = Throw s' ∧ currentSlide (this s') = 5
        ∧ ¬ aria_in_sync s'.
Proof.
  eexists. split; [vm_compute; reflexivity|]. split; [reflexivity|].
  intros H. specialize (H 0%nat _ eq_refl). vm_compute in H. discriminate.
Qed.

(** ** Reasoning about the monad *)

Lemma bind_ok {A B} (m : M A) (f : A → M B) s a s' :
  m s = Ok a s' → (m ≫= f) s = f a s'.
Proof. intros H. unfold mbind, M_bind. by rewrite H. Qed.

Lemma bind_throw {A B} (m : M A) (f : A → M B) s s' :
  m s = Throw s' → (m ≫= f) s = Throw s'.
Proof. intros H. unfold mbind, M_bind. by rewrite H. Qed.

Lemma bind_gets {A B} (g : State → A) (f : A → M B) s :
  (gets g ≫= f) s = f (g s) s.
Proof. reflexivity. Qed.

Lemma bind_modify {B} (g : State → State) (f : unit → M B) s :
  (modify g ≫= f) s = f () (g s).
Proof. reflexivity. Qed.

Lemma bind_ret {A B} (a : A) (f : A → M B) s :
  (mret a ≫= f) s = f a s.
Proof. reflexivity. Qed.

Lemma preserves_ret P {A} (a : A) : preserves P (mret a : M A).
Proof. by intros s Hs. Qed.

Lemma preserves_gets P {A} (g : State → A) : preserves P (gets g).
Proof. by intros s Hs. Qed.

Lemma preserves_throw P {A} : preserves P (throw : M A).
Proof. by intros s Hs. Qed.

Lemma preserves_modify P (g : State → State) :
  (∀ s, P s → P (g s)) → preserves P (modify g).
Proof. intros Hg s Hs. by apply Hg. Qed.

Lemma preserves_bind P {A B} (m : M A) (f : A → M B) :
  preserves P m → (∀ a, preserves P (f a)) → preserves P (m ≫= f).
Proof.
  intros Hm Hf s Hs. unfold mbind, M_bind.
  specialize (Hm s Hs). destruct (m s) as [a s'|s']; simpl in *.
  - by apply Hf.
  - done.
Qed.

(** The value read by [gets] is known in the rest of the computation. *)
Lemma preserves_bind_gets P {A B} (g : State → A) (f : A → M B) :
  (∀ s, P s → P (final (f (g s) s))) → preserves P (gets g ≫= f).
Proof. intros Hf s Hs. rewrite bind_gets. by apply Hf. Qed.

Lemma preserves_when P (b : bool) (m : M unit) :
  preserves P m → preserves P (when b m).
Proof. intros Hm. destruct b; [done | apply preserves_ret]. Qed.

(** ** The regular expression of [handleHashNavigation] *)

Lemma slide_regex_at_backslash s g :
  Js.slide_regex_at s = Some g → ∃ ds, g = String Js.backslash ds.
Proof.
  unfold Js.slide_regex_at. intros H.
  destruct (Js.strip_prefix "#slide" s) as [[|c rest]|]; try done.
  destruct (Js.is_char c Js.backslash); try done.
  destruct (Js.take_while (Js.is_char "d") rest) as [|d ds]; try done.
  simplify_eq. eauto.
Qed.

(** Group 1 of a match always starts with the backslash. *)
Lemma slide_regex_match_backslash s g :
  Js.slide_regex_match s = Some g → ∃ ds, g = String Js.backslash ds.
Proof.
  induction s as [|c t IH]; simpl; intros H.
  - done.
  - destruct (Js.slide_regex_at (String c t)) eqn:E.
    + simplify_eq. by eapply slide_regex_at_backslash.
    + by apply IH.
Qed.

(** [parseInt] of such a group is [NaN]. *)
Lemma parseInt_backslash ds : Js.parseInt (String Js.backslash ds) = None.
Proof. reflexivity. Qed.

(** Whatever the fragment, [handleHashNavigation] returns without calling
    [goToSlide]. *)
Lemma handleHashNavigation_inert s : handleHashNavigation s = Ok () s.
Proof.
  unfold handleHashNavigation. rewrite bind_gets.
  destruct (Js.slide_regex_match (locationHash (page s))) as [g|] eqn:E; [|done].
  apply slide_regex_match_backslash in E as [ds ->].
  rewrite bind_gets. by rewrite parseInt_backslash.
Qed.

(** ** Invariants *)

Create HintDb pres discriminated.

Ltac head_of t :=
  lazymatch t with
  | ?f _ => head_of f
  | _ => t
  end.

(** Proves [preserves P m] along the structure of [m]: lemmas of the [pres]
    database first, then the monad, then the body of the method. *)
Ltac pres :=
  first
    [ solve [auto 2 with pres]
    | lazymatch goal with
      | |- preserves _ (mret _) => apply preserves_ret
      | |- preserves _ (gets _) => apply preserves_gets
      | |- preserves _ throw => apply preserves_throw
      | |- preserves _ (when _ _) => apply preserves_when; pres
      | |- preserves _ (mbind _ _) =>
          apply preserves_bind; [pres | intros ?; pres]
      | |- preserves _ (modify _) =>
          apply preserves_modify; let H := fresh in intros ? H; exact H
      | |- preserves _ (if ?b then _ else _) => destruct b; pres
      | |- preserves _ (match ?x with _ => _ end) => destruct x; pres
      | |- preserves _ ?m => let h := head_of m in unfold h; pres
      end ].

Lemma preserves_slide_at P k : preserves P (slide_at k).
Proof.
  intros s Hs. unfold slide_at.
  destruct (bool_decide (0 ≤ k)); [|done].
  by destruct (slides (page s) !! Z.to_nat k).
Qed.
#[global] Hint Resolve preserves_slide_at : pres.

Lemma preserves_setTimeout P task delay :
  (∀ f s, P s → P (on_browser f s)) → preserves P (setTimeout task delay).
Proof. intros HP s Hs. by apply HP. Qed.

Lemma in_range_on_browser f s : in_range s → in_range (on_browser f s).
Proof. done. Qed.

Lemma in_range_on_page f s : in_range s → in_range (on_page f s).
Proof. done. Qed.

Lemma setTimeout_in_range task delay : preserves in_range (setTimeout task delay).
Proof. apply preserves_setTimeout, in_range_on_browser. Qed.
#[global] Hint Resolve setTimeout_in_range : pres.

(** The guard of [goToSlide] lets through the slide numbers of the deck and
    nothing else. *)
Lemma goToSlide_guard n cur total :
  bool_decide (n < 1) || bool_decide (n > total) || bool_decide (n = cur) = false
  ↔ 1 ≤ n ≤ total ∧ n ≠ cur.
Proof.
  rewrite !orb_false_iff, !bool_decide_eq_false. lia.
Qed.

Lemma final_bind {A B} (Q : State → Prop) (m : M A) (f : A → M B) s :
  (∀ s', m s = Throw s' → Q s') →
  (∀ a s', m s = Ok a s' → Q (final (f a s'))) →
  Q (final ((m ≫= f) s)).
Proof.
  intros Ht Ho. unfold mbind, M_bind.
  destruct (m s) as [a s'|s']; simpl; eauto.
Qed.

(** Applies, to a goal about the state an explicit run ends in, the fact
    that the computation preserves the property. *)
Ltac by_preservation :=
  cbv beta;
  lazymatch goal with
  | |- ?P (final (?m ?s)) =>
      let HP := fresh in
      assert (HP : preserves P m) by pres; apply HP; clear HP
  end.

Lemma goToSlide_method_in_range n : preserves in_range (goToSlide_method n).
Proof.
  intros s Hs. unfold goToSlide_method. rewrite !bind_gets.
  destruct (_ || _ || _) eqn:G; [done|].
  apply goToSlide_guard in G as [Hn _].
  assert (Hu : preserves in_range
            (update_slide (currentSlide (this s) - 1) leave)) by pres.
  specialize (Hu s Hs).
  apply final_bind.
  - intros s' E. by rewrite E in Hu.
  - intros [] s' E. rewrite E in Hu. simpl in Hu.
    rewrite bind_modify. by_preservation.
    destruct Hs as [Ht _], Hu as [Ht' _]. split; simpl; [done | lia].
Qed.
#[global] Hint Resolve goToSlide_method_in_range : pres.

(** Every event and every call leaves the current slide inside the deck,
    also when it ends in an exception. *)
Lemma step_in_range o : preserves in_range (step o).
Proof.
  destruct o as [e|c]; [destruct e | destruct c]; simpl; pres.
Qed.

Lemma run_in_range ops s : in_range s → in_range (run ops s).
Proof.
  revert s. induction ops as [|o ops IH]; intros s Hs; simpl; [done|].
  by apply IH, step_in_range.
Qed.

Lemma constructor_in_range markup b : in_range (final (constructor markup b)).
Proof. unfold constructor. by_preservation. split; simpl; lia. Qed.

(** ** Runs that return *)

Lemma wp_ret {A} (a : A) s Q : Q a s → wp (mret a) s Q.
Proof. done. Qed.

Lemma wp_gets {A} (g : State → A) s Q : Q (g s) s → wp (gets g) s Q.
Proof. done. Qed.

Lemma wp_modify (g : State → State) s Q : Q () (g s) → wp (modify g) s Q.
Proof. done. Qed.

Lemma wp_bind {A B} (m : M A) (f : A → M B) s Q :
  wp m s (λ a s', wp (f a) s' Q) → wp (m ≫= f) s Q.
Proof.
  unfold wp, mbind, M_bind. by destruct (m s).
Qed.

Lemma wp_mono {A} (m : M A) s (Q Q' : A → State → Prop) :
  wp m s Q → (∀ a s', Q a s' → Q' a s') → wp m s Q'.
Proof. unfold wp. destruct (m s); [auto | done]. Qed.

Lemma wp_elim {A} (m : M A) s Q : wp m s Q → ∃ a s', m s = Ok a s' ∧ Q a s'.
Proof. unfold wp. destruct (m s); [eauto | done]. Qed.

Lemma wp_final {A} (m : M A) s (P : State → Prop) :
  wp m s (λ _ s', P s') → P (final (m s)).
Proof. unfold wp. by destruct (m s). Qed.

Lemma wp_setTimeout task delay s Q :
  Q (nextTimer (browser s))
    (on_browser (λ b, set_nextTimer (S (nextTimer (browser s)))
       (set_timers (timers b ++ [mkTimer (nextTimer (browser s)) delay task]) b)) s) →
  wp (setTimeout task delay) s Q.
Proof. done. Qed.

Lemma wp_slide_at k s Q :
  0 ≤ k → (Z.to_nat k < length (slides (page s)))%nat →
  (∀ sl, slides (page s) !! Z.to_nat k = Some sl → Q sl s) →
  wp (slide_at k) s Q.
Proof.
  intros Hk Hlen HQ. unfold wp, slide_at.
  rewrite bool_decide_eq_true_2 by done.
  apply lookup_lt_is_Some_2 in Hlen as [sl Hsl]. rewrite Hsl. by apply HQ.
Qed.

Ltac wp_step :=
  lazymatch goal with
  | |- wp (mret _) _ _ => apply wp_ret
  | |- wp (gets _) _ _ => apply wp_gets
  | |- wp (modify _) _ _ => apply wp_modify
  | |- wp (mbind _ _) _ _ => apply wp_bind
  | |- wp (setTimeout _ _) _ _ => apply wp_setTimeout
  | |- wp (slide_at _) _ _ => fail
  | |- wp (if ?b then _ else _) _ _ => destruct b eqn:?
  | |- wp (match ?x with _ => _ end) _ _ => destruct x eqn:?
  | |- wp ?m _ _ => let h := head_of m in unfold h
  end; cbv beta.

Ltac wp_go := repeat wp_step.

(** *** [goToSlide] on a slide of the deck other than the current one *)

Lemma goToSlide_method_navigates n s :
  in_range s → length (slides (page s)) = 7%nat →
  1 ≤ n ≤ 7 → n ≠ currentSlide (this s) →
  wp (goToSlide_method n) s (λ _ s', navigated n s s').
Proof.
  intros [Ht Hc] Hlen Hn Hne. unfold goToSlide_method.
  do 2 wp_step. do 2 wp_step.
  assert (G : bool_decide (n < 1) || bool_decide (n > totalSlides (this s))
              || bool_decide (n = currentSlide (this s)) = false).
  { apply goToSlide_guard. rewrite Ht. lia. }
  rewrite G. wp_step. unfold update_slide. wp_step.
  apply wp_slide_at; [lia | lia |]. intros _ _. cbv beta.
  wp_go.
  all: apply wp_slide_at; simpl; [lia | rewrite length_alter; lia |].
  all: intros _ _; cbv beta; wp_go; by repeat split.
Qed.

(** Otherwise the method returns at once. *)
Lemma goToSlide_method_noop n s :
  n < 1 ∨ n > totalSlides (this s) ∨ n = currentSlide (this s) →
  goToSlide_method n s = Ok () s.
Proof.
  intros Hn. unfold goToSlide_method. rewrite !bind_gets.
  destruct (_ || _ || _) eqn:G; [done|].
  apply goToSlide_guard in G. lia.
Qed.

(** *** The [aria-hidden] attributes *)

Lemma updateAriaHidden_sync s : aria_in_sync (final (updateAriaHidden s)).
Proof.
  intros i sl. simpl. rewrite list_lookup_imap.
  destruct (slides (page s) !! i); simpl; [|done].
  by intros [= <-].
Qed.

Lemma set_ariaHidden_same sl : set_ariaHidden (ariaHidden sl) sl = sl.
Proof. by destruct sl. Qed.

Lemma on_page_same s : on_page (λ p, set_slides (slides p) p) s = s.
Proof. by destruct s as [c [] b]. Qed.

(** Writing the attributes again changes nothing when they were right. *)
Lemma updateAriaHidden_id s : aria_in_sync s → updateAriaHidden s = Ok () s.
Proof.
  intros Hs. unfold updateAriaHidden, modify. f_equal.
  transitivity (on_page (λ p, set_slides (slides p) p) s); [|apply on_page_same].
  unfold on_page. f_equal. f_equal.
  apply list_eq. intros i. rewrite list_lookup_imap.
  destruct (slides (page s) !! i) as [sl|] eqn:E; simpl; [|done].
  f_equal. rewrite <- (Hs i sl E). apply set_ariaHidden_same.
Qed.

Lemma updateAriaHidden_shape s :
  page_shape s → page_shape (final (updateAriaHidden s)).
Proof.
  intros [Hlen Hh]. split; simpl.
  - by rewrite length_imap.
  - intros i sl. rewrite list_lookup_imap.
    destruct (slides (page s) !! i) as [sl0|] eqn:E; simpl; [|done].
    intros [= <-]. simpl. by eapply Hh.
Qed.

Lemma alter_class_only_lookup f k (l : list Slide) i sl :
  class_only f → alter f k l !! i = Some sl →
  ∃ sl0, l !! i = Some sl0 ∧ ariaHidden sl = ariaHidden sl0
         ∧ heading sl = heading sl0.
Proof.
  intros Hf. destruct (decide (k = i)) as [->|Hne].
  - rewrite list_lookup_alter_eq.
    destruct (l !! i) as [sl0|]; simpl; [|done].
    intros [= <-]. exists sl0. destruct (Hf sl0). auto.
  - rewrite list_lookup_alter_ne by done. eauto.
Qed.

(** ** What one navigation does on the expected page *)

(** [goToSlide] returns, with the current slide [n] when [n] is a slide of
    the deck and unchanged otherwise; the attributes are in sync, the page
    keeps its shape and sound is not touched. *)
Lemma goToSlide_spec n s :
  in_range s → length (slides (page s)) = 7%nat →
  ∃ s', goToSlide n s = Ok () s' ∧
    in_range s' ∧ length (slides (page s')) = 7%nat ∧
    (page_shape s → page_shape s') ∧ aria_in_sync s' ∧
    currentSlide (this s') =
      (if bool_decide (1 ≤ n ≤ 7) then n else currentSlide (this s)) ∧
    soundEnabled (this s') = soundEnabled (this s) ∧
    mutedClass (page s') = mutedClass (page s) ∧
    iconClassName (page s') = iconClassName (page s).
Proof.
  intros Hr Hlen. unfold goToSlide.
  destruct (decide (1 ≤ n ≤ 7 ∧ n ≠ currentSlide (this s))) as [[Hn Hne]|Hno].
  - destruct (wp_elim _ _ _ (goToSlide_method_navigates n s Hr Hlen Hn Hne))
      as ([] & s1 & E & Hthis & Hsl & Hm & Hi).
    rewrite (bind_ok _ _ _ _ _ E).
    assert (Hr1 : in_range s1).
    { destruct Hr as [Ht _]. split; rewrite Hthis; simpl; [done | lia]. }
    assert (Hp1 : page_shape s → page_shape s1).
    { intros [_ Hh]. split; rewrite Hsl.
      - by rewrite length_alter.
      - intros i sl Hl.
        apply alter_class_only_lookup in Hl as (sl0 & Hl0 & _ & ->); [|done].
        by eapply Hh. }
    eexists. split; [reflexivity|]. split; [exact Hr1|].
    split; [simpl; by rewrite length_imap, Hsl, length_alter|].
    split; [intros Hp; by apply updateAriaHidden_shape, Hp1|].
    split; [apply updateAriaHidden_sync|].
    simpl. rewrite Hthis. simpl. rewrite bool_decide_eq_true_2 by done.
    by repeat split.
  - assert (Hg : n < 1 ∨ n > totalSlides (this s) ∨ n = currentSlide (this s)).
    { destruct Hr as [-> _]. lia. }
    rewrite (bind_ok _ _ _ _ _ (goToSlide_method_noop n s Hg)).
    eexists. split; [reflexivity|]. split; [exact Hr|].
    split; [simpl; by rewrite length_imap|].
    split; [apply updateAriaHidden_shape|].
    split; [apply updateAriaHidden_sync|].
    simpl. split; [|done]. case_bool_decide; [|done].
    destruct (decide (n = currentSlide (this s))); [done|]. tauto.
Qed.

(** The query returns on the expected page. *)
Lemma getCurrentSlideInfo_ok s :
  in_range s → page_shape s →
  ∃ info, getCurrentSlideInfo s = Ok info s ∧
    current info = currentSlide (this s) ∧ total info = totalSlides (this s) ∧
    infoIsFullscreen info = isFullscreen (this s) ∧
    infoIsPresentationMode info = isPresentationMode (this s).
Proof.
  intros [Ht Hc] [Hlen Hh]. unfold getCurrentSlideInfo. rewrite bind_gets.
  destruct (lookup_lt_is_Some_2 (slides (page s))
              (Z.to_nat (currentSlide (this s) - 1))) as [sl Hsl]; [lia|].
  assert (E : slide_at (currentSlide (this s) - 1) s = Ok sl s).
  { unfold slide_at. rewrite bool_decide_eq_true_2 by lia. by rewrite Hsl. }
  rewrite (bind_ok _ _ _ _ _ E).
  destruct (Hh _ _ Hsl) as [text Htext]. rewrite Htext.
  eexists. split; [reflexivity|]. done.
Qed.

(** ** The expected page stays expected *)

Lemma slide_at_state k s : final (slide_at k s) = s.
Proof.
  unfold slide_at. destruct (bool_decide (0 ≤ k)); [|done].
  by destruct (slides (page s) !! Z.to_nat k).
Qed.

Lemma setTimeout_expected task delay : preserves expected (setTimeout task delay).
Proof. intros s H. exact H. Qed.

Lemma update_slide_expected k f :
  class_only f → preserves expected (update_slide k f).
Proof.
  intros Hf s Hs. unfold update_slide. apply final_bind.
  - intros s' E. pose proof (slide_at_state k s) as F.
    rewrite E in F. simpl in F. by subst.
  - intros sl s' E. pose proof (slide_at_state k s) as F.
    rewrite E in F. simpl in F. subst s'.
    destruct Hs as (Hr & [Hlen Hh] & Ha & Hi).
    split; [exact Hr|]. split; [|split; [|exact Hi]].
    + split; simpl; [by rewrite length_alter|].
      intros i sl' Hl.
      apply alter_class_only_lookup in Hl as (sl0 & Hl0 & _ & ->); [|done].
      by eapply Hh.
    + intros i sl' Hl. simpl in Hl.
      apply alter_class_only_lookup in Hl as (sl0 & Hl0 & -> & _); [|done].
      by apply Ha.
Qed.

Lemma class_only_leave : class_only leave.
Proof. by intros sl. Qed.

Lemma class_only_enter : class_only enter.
Proof. by intros sl. Qed.

Lemma class_only_set_prev v : class_only (set_prev v).
Proof. by intros sl. Qed.

Lemma updateAriaHidden_expected : preserves expected updateAriaHidden.
Proof.
  intros s (Hr & Hp & Ha & Hi).
  split; [exact Hr|]. split; [by apply updateAriaHidden_shape|].
  split; [apply updateAriaHidden_sync | exact Hi].
Qed.

Lemma goToSlide_expected n : preserves expected (goToSlide n).
Proof.
  intros s (Hr & Hp & Ha & Hi).
  destruct (goToSlide_spec n s Hr (proj1 Hp))
    as (s' & E & Hr' & _ & Hp' & Ha' & _ & Hse & Hm & Hic).
  rewrite E. simpl.
  split; [exact Hr'|]. split; [by apply Hp'|]. split; [exact Ha'|].
  split.
  - rewrite Hm, Hse. apply Hi.
  - rewrite Hic, Hse. apply Hi.
Qed.

Lemma toggleSound_expected : preserves expected toggleSound.
Proof.
  intros s (Hr & Hp & Ha & Hi).
  split; [exact Hr|]. split; [exact Hp|]. split; [exact Ha|].
  split; simpl; by destruct (soundEnabled (this s)).
Qed.

#[global] Hint Resolve setTimeout_expected update_slide_expected
  class_only_leave class_only_enter class_only_set_prev
  updateAriaHidden_expected goToSlide_expected toggleSound_expected : pres.

(** Every event and every call keeps the expected page expected. *)
Lemma step_expected o : preserves expected (step o).
Proof.
  destruct o as [e|c]; [destruct e | destruct c]; simpl; pres.
Qed.

Lemma run_expected ops s : expected s → expected (run ops s).
Proof.
  revert s. induction ops as [|o ops IH]; intros s Hs; simpl; [done|].
  by apply IH, step_expected.
Qed.

Lemma constructor_expected markup b :
  expected_markup markup → expected (final (constructor markup b)).
Proof.
  intros (Hlen & Hh & Hm & Hi). unfold constructor, init.
  set (s0 := mkState _ markup b).
  assert (Hs0 : in_range s0 ∧ page_shape s0 ∧ indicator_in_sync s0).
  { split; [split; simpl; lia|]. by repeat split. }
  destruct Hs0 as (Hr & Hp & Hind).
  split; [exact Hr|]. split; [by apply (updateAriaHidden_shape _ Hp)|].
  split; [apply updateAriaHidden_sync | exact Hind].
Qed.

(** Construction leaves the attributes in sync on any markup. *)
Lemma constructor_aria markup b : aria_in_sync (final (constructor markup b)).
Proof. unfold constructor, init. apply updateAriaHidden_sync. Qed.

(** Every state the controller reaches on the expected markup is expected. *)
Lemma reachable_expected markup b ops :
  expected_markup markup → expected (run ops (final (constructor markup b))).
Proof. intros H. by apply run_expected, constructor_expected. Qed.

(** ** Hash navigation *)

(** C1 (the code departs from the claim). The claim: a fragment [#slideN]
    with N in 1..7 makes [handleHashNavigation] navigate to slide N. The
    code: on the loaded sample page showing slide 1 with the fragment
    [#slide4], the expression [/#slide(\\d+)/] does not match,
    [handleHashNavigation] returns with the state untouched, and both ways
    of invoking it (the [hashchange] event, and the load callback on a page
    opened at [#slide4]) leave the current slide at 1. *)
Theorem hash_slide4_not_navigated :
  Js.slide_regex_match "#slide4" = None ∧
  isLoaded (this sample_at_slide4_hash) = true ∧
  currentSlide (this sample_at_slide4_hash) = 1 ∧
  handleHashNavigation sample_at_slide4_hash = Ok () sample_at_slide4_hash ∧
  currentSlide (this (final (dispatch (HashChange "#slide4") sample_loaded))) = 1 ∧
  currentSlide (this (run [OnEvent (TimerFires 1)]
    (final (constructor (set_locationHash "#slide4" sample_markup)
              sample_browser)))) = 1.
Proof. do 5 (split; [vm_compute; reflexivity|]). vm_compute; reflexivity. Qed.

(** A hash change never moves the current slide, whatever the fragment. *)
Lemma hashchange_keeps_slide hash s :
  dispatch (HashChange hash) s = Ok () (on_page (set_locationHash hash) s).
Proof. simpl. rewrite bind_modify. apply handleHashNavigation_inert. Qed.

(** ** Input before the page is loaded *)

(** C2 (counterexample). On the sample page right after construction
    ([isLoaded] is false) a click on the sound button turns sound off and
    shows the mute indicator, and a click on the fourth navigation dot
    navigates to slide 4: the click handlers do not test [isLoaded]. *)
Lemma click_before_load_counterexample :
  isLoaded (this sample_initial) = false ∧
  soundEnabled (this sample_initial) = true ∧
  soundEnabled (this (final (dispatch SoundToggleClick sample_initial))) = false ∧
  mutedClass (page (final (dispatch SoundToggleClick sample_initial))) = true ∧
  currentSlide (this sample_initial) = 1 ∧
  currentSlide (this (final (dispatch (DotClick 3) sample_initial))) = 4 ∧
  dispatch SoundToggleClick sample_initial ≠ Ok () sample_initial ∧
  dispatch (DotClick 3) sample_initial ≠ Ok () sample_initial.
Proof.
  do 6 (split; [vm_compute; reflexivity|]). split.
  - intros H. apply (f_equal (λ r, soundEnabled (this (final r)))) in H.
    vm_compute in H. discriminate.
  - intros H. apply (f_equal (λ r, currentSlide (this (final r)))) in H.
    vm_compute in H. discriminate.
Qed.

(** C2 (amended). A key-down, touch-start or touch-end event that arrives
    while [isLoaded] is false leaves the whole state unchanged: no
    navigation, no toggle, no effect. *)
Theorem input_before_load_ignored e s :
  gated_event e = true → isLoaded (this s) = false → dispatch e s = Ok () s.
Proof.
  intros He Hl. destruct e; try discriminate; simpl.
  - unfold handleKeyDown. rewrite bind_gets, Hl. reflexivity.
  - unfold handleTouchStart. rewrite bind_gets, Hl. reflexivity.
  - unfold handleTouchEnd. rewrite bind_gets, Hl. reflexivity.
Qed.

Lemma input_before_load_ignored_witness :
  dispatch (KeyDown "ArrowRight") sample_initial = Ok () sample_initial.
Proof.
  apply (input_before_load_ignored (KeyDown "ArrowRight") sample_initial);
    reflexivity.
Defined.

(** ** Navigation *)

(** C3. For every n in 1..7, on the expected page, [goToSlide(n)] returns
    and [getCurrentSlideInfo()] then returns a record whose [current] is n
    and whose [total] is 7. *)
Theorem goToSlide_then_getCurrentSlideInfo n s :
  1 ≤ n ≤ 7 → in_range s → page_shape s →
  ∃ s' info,
    goToSlide n s = Ok () s' ∧
    getCurrentSlideInfo s' = Ok info s' ∧
    current info = n ∧ total info = 7.
Proof.
  intros Hn Hr Hp.
  destruct (goToSlide_spec n s Hr (proj1 Hp))
    as (s' & E & Hr' & _ & Hp' & _ & Hc & _).
  destruct (getCurrentSlideInfo_ok s' Hr' (Hp' Hp)) as (info & Ei & Hcur & Htot & _).
  exists s', info. split; [done|]. split; [done|].
  rewrite Hcur, Htot, Hc. rewrite bool_decide_eq_true_2 by done.
  split; [done | apply Hr'].
Qed.

Lemma sample_loaded_in_range : in_range sample_loaded.
Proof. split; vm_compute; [reflexivity | split; discriminate]. Qed.

Lemma sample_loaded_page_shape : page_shape sample_loaded.
Proof.
  split; [reflexivity|]. intros i sl.
  do 7 (destruct i as [|i]; [intros [= <-]; eexists; reflexivity|]).
  discriminate.
Qed.

Lemma goToSlide_then_getCurrentSlideInfo_witness :
  ∃ s' info,
    goToSlide 4 sample_loaded = Ok () s' ∧
    getCurrentSlideInfo s' = Ok info s' ∧
    current info = 4 ∧ total info = 7.
Proof.
  apply (goToSlide_then_getCurrentSlideInfo 4 sample_loaded).
  - lia.
  - exact sample_loaded_in_range.
  - exact sample_loaded_page_shape.
Defined.

(** C4. When n is below 1, above 7 or the current slide, [goToSlide(n)]
    returns and is a no-op: the fields of the controller are unchanged; the
    pending timers and the trace of effects are unchanged (no animation, no
    sound, no URL replacement, no announcement timer); the page is
    unchanged (progress, dots, fragment, announcements and the classes of
    the slides) up to the [aria-hidden] attributes, which the call writes
    again; and when these were as every earlier call leaves them, the whole
    state is unchanged. *)
Theorem goToSlide_noop n s :
  n < 1 ∨ n > 7 ∨ n = currentSlide (this s) →
  totalSlides (this s) = 7 →
  ∃ s', goToSlide n s = Ok () s' ∧
    this s' = this s ∧
    browser s' = browser s ∧
    page s' = set_slides (slides (page s')) (page s) ∧
    Forall2 same_classes (slides (page s)) (slides (page s')) ∧
    (aria_in_sync s → s' = s).
Proof.
  intros Hn Ht. unfold goToSlide.
  assert (Hg : n < 1 ∨ n > totalSlides (this s) ∨ n = currentSlide (this s))
    by (rewrite Ht; exact Hn).
  rewrite (bind_ok _ _ _ _ _ (goToSlide_method_noop n s Hg)).
  eexists. split; [reflexivity|].
  split; [reflexivity|]. split; [reflexivity|]. split; [reflexivity|].
  split.
  - simpl. apply Forall2_lookup. intros i. rewrite list_lookup_imap.
    destruct (slides (page s) !! i); constructor. by repeat split.
  - intros Ha. pose proof (updateAriaHidden_id s Ha) as E.
    unfold updateAriaHidden, modify in E. by injection E.
Qed.

Lemma sample_loaded_expected : expected sample_loaded.
Proof.
  apply (reachable_expected sample_markup sample_browser [OnEvent (TimerFires 1)]).
  split; [reflexivity|]. split; [|by split].
  intros i sl.
  do 7 (destruct i as [|i]; [intros [= <-]; eexists; reflexivity|]).
  discriminate.
Qed.

Lemma goToSlide_noop_witness :
  goToSlide 0 sample_loaded = Ok () sample_loaded ∧
  goToSlide 8 sample_loaded = Ok () sample_loaded ∧
  goToSlide 1 sample_loaded = Ok () sample_loaded.
Proof.
  pose proof sample_loaded_expected as (_ & _ & Ha & _).
  split; [|split].
  - destruct (goToSlide_noop 0 sample_loaded) as (s' & E & _ & _ & _ & _ & H);
      [lia | reflexivity |].
    by rewrite E, (H Ha).
  - destruct (goToSlide_noop 8 sample_loaded) as (s' & E & _ & _ & _ & _ & H);
      [lia | reflexivity |].
    by rewrite E, (H Ha).
  - destruct (goToSlide_noop 1 sample_loaded) as (s' & E & _ & _ & _ & _ & H);
      [right; right; reflexivity | reflexivity |].
    by rewrite E, (H Ha).
Defined.

(** C5. The invariant 1 <= currentSlide <= 7 holds after construction, on
    any markup and in any browser, in every state reached from there by any
    sequence of events and calls, and after one more event or call
    (navigation, key, hash change, swipe, mode toggle, timer, ...), also
    when that one ends in an exception. *)
Theorem currentSlide_invariant markup b ops o :
  let s0 := final (constructor markup b) in
  let s := run ops s0 in
  1 ≤ currentSlide (this s0) ≤ 7 ∧
  1 ≤ currentSlide (this s) ≤ 7 ∧
  1 ≤ currentSlide (this (final (step o s))) ≤ 7.
Proof.
  intros s0 s.
  pose proof (constructor_in_range markup b) as H0.
  pose proof (run_in_range ops _ H0) as H1.
  pose proof (step_in_range o _ H1) as H2.
  split; [apply H0|]. split; [apply H1 | apply H2].
Qed.

(** C6. [nextSlide()] on slide 7 and [previousSlide()] on slide 1 return
    with the state as it was: there is no wraparound. *)
Theorem no_wraparound s :
  totalSlides (this s) = 7 →
  (currentSlide (this s) = 7 → nextSlide s = Ok () s) ∧
  (currentSlide (this s) = 1 → previousSlide s = Ok () s).
Proof.
  intros Ht. split; intros Hc.
  - unfold nextSlide. rewrite !bind_gets, Hc, Ht. reflexivity.
  - unfold previousSlide. rewrite bind_gets, Hc. reflexivity.
Qed.

Lemma no_wraparound_witness :
  nextSlide sample_last = Ok () sample_last ∧
  previousSlide sample_loaded = Ok () sample_loaded.
Proof.
  split.
  - destruct (no_wraparound sample_last eq_refl) as [Hnext _].
    apply Hnext. reflexivity.
  - destruct (no_wraparound sample_loaded eq_refl) as [_ Hprev].
    apply Hprev. reflexivity.
Defined.

(** ** Swipes *)

(** C7. With delta = endX - startX: when |delta| <= 50 [handleSwipe] does
    nothing; when delta < -50 (a swipe to the left) it is [nextSlide]; when
    delta > 50 (a swipe to the right) it is [previousSlide]. *)
Theorem handleSwipe_threshold s startX endX :
  touchStartX (this s) = startX → touchEndX (this s) = endX →
  let delta := endX - startX in
  (Z.abs delta ≤ 50 → handleSwipe s = Ok () s) ∧
  (delta < -50 → handleSwipe s = nextSlide s) ∧
  (delta > 50 → handleSwipe s = previousSlide s).
Proof.
  intros Hs He delta. unfold handleSwipe. rewrite !bind_gets, Hs, He.
  fold delta. split; [|split]; intros Hd.
  - rewrite bool_decide_eq_false_2 by lia. reflexivity.
  - rewrite bool_decide_eq_true_2 by lia.
    rewrite bool_decide_eq_false_2 by lia. reflexivity.
  - rewrite bool_decide_eq_true_2 by lia.
    rewrite bool_decide_eq_true_2 by lia. reflexivity.
Qed.

Lemma handleSwipe_threshold_witness :
  handleSwipe (sample_touch 100 150) = Ok () (sample_touch 100 150) ∧
  handleSwipe (sample_touch 100 40) = nextSlide (sample_touch 100 40) ∧
  handleSwipe (sample_touch 100 160) = previousSlide (sample_touch 100 160).
Proof.
  split; [|split].
  - destruct (handleSwipe_threshold (sample_touch 100 150) 100 150 eq_refl eq_refl)
      as (Htap & _ & _).
    apply Htap. simpl. lia.
  - destruct (handleSwipe_threshold (sample_touch 100 40) 100 40 eq_refl eq_refl)
      as (_ & Hleft & _).
    apply Hleft. lia.
  - destruct (handleSwipe_threshold (sample_touch 100 160) 100 160 eq_refl eq_refl)
      as (_ & _ & Hright).
    apply Hright. lia.
Defined.

(** A touch from [startX] to [endX] on the loaded page: the two handlers
    record the coordinates and [handleSwipe] sees them. *)
Lemma touch_gesture s startX endX :
  isLoaded (this s) = true →
  (handleTouchStart startX ;; handleTouchEnd endX) s =
  handleSwipe
    (on_this (set_touchEndX endX) (on_this (set_touchStartX startX) s)).
Proof.
  intros Hl. unfold handleTouchStart, handleTouchEnd.
  unfold mbind, M_bind, gets, modify, when, mret, M_ret. simpl.
  rewrite Hl. simpl. rewrite Z.sub_diag. simpl.
  rewrite Hl. reflexivity.
Qed.

(** ** Fullscreen and presentation mode *)

(** C8. When [handleFullscreenChange] runs while the document reports a
    fullscreen element (under any of the four spellings), it returns with
    [isFullscreen] and [isPresentationMode] both true. *)
Theorem fullscreen_enters_presentation_mode s :
  any_vendor (fullscreenElement (browser s)) = true →
  ∃ s', handleFullscreenChange s = Ok () s' ∧
    isFullscreen (this s') = true ∧ isPresentationMode (this s') = true.
Proof.
  intros Hf.
  assert (W : wp handleFullscreenChange s
                (λ _ s', isFullscreen (this s') = true
                         ∧ isPresentationMode (this s') = true)).
  { unfold handleFullscreenChange. wp_go; simpl in *; try done; congruence. }
  apply wp_elim in W as ([] & s' & E & H). by exists s'.
Qed.

Lemma fullscreen_enters_presentation_mode_witness :
  ∃ s', handleFullscreenChange sample_fullscreen = Ok () s' ∧
    isFullscreen (this s') = true ∧ isPresentationMode (this s') = true.
Proof.
  apply (fullscreen_enters_presentation_mode sample_fullscreen). reflexivity.
Defined.

(** The same through the event: the notification that brings a fullscreen
    element switches both flags on. *)
Lemma fullscreenchange_event element s :
  any_vendor element = true →
  isFullscreen (this (final (dispatch (FullscreenChange element) s))) = true ∧
  isPresentationMode (this (final (dispatch (FullscreenChange element) s))) = true.
Proof.
  intros He. simpl. rewrite bind_modify.
  apply (wp_final _ _ (λ s', isFullscreen (this s') = true
                             ∧ isPresentationMode (this s') = true)).
  unfold handleFullscreenChange. wp_go; simpl in *; try done; congruence.
Qed.

(** ** Sound *)

Lemma toggleSound_indicator s : indicator_in_sync (final (toggleSound s)).
Proof. split; simpl; by destruct (soundEnabled (this s)). Qed.

(** C9 (counterexample). On the sample page built from markup whose sound
    button starts with the class [muted] and the muted icon, [soundEnabled]
    is true after construction; two calls of [toggleSound] return it to
    true, but leave the button without [muted] and with the volume-up icon:
    the mute indicator is not restored. *)
Lemma toggleSound_twice_counterexample :
  soundEnabled (this sample_muted_start) = true ∧
  mutedClass (page sample_muted_start) = true ∧
  iconClassName (page sample_muted_start) = "fas fa-volume-mute" ∧
  (toggleSound ;; toggleSound) sample_muted_start = Ok () sample_muted_twice ∧
  soundEnabled (this sample_muted_twice) = true ∧
  mutedClass (page sample_muted_twice) = false ∧
  iconClassName (page sample_muted_twice) = "fas fa-volume-up" ∧
  sample_muted_twice ≠ sample_muted_start.
Proof.
  do 7 (split; [vm_compute; reflexivity|]).
  intros H. apply (f_equal (λ st, mutedClass (page st))) in H.
  vm_compute in H. discriminate.
Qed.

(** C9 (amended). Calling [toggleSound()] twice returns, with
    [soundEnabled] at its original value whatever the starting state; and
    when the mute indicator showed [soundEnabled] to begin with (as it does
    after any [toggleSound]), the indicator, with its [muted] class and its
    icon, and the whole state are as they were: the double toggle is then
    the identity. *)
Theorem toggleSound_twice s :
  let s2 := final ((toggleSound ;; toggleSound) s) in
  (toggleSound ;; toggleSound) s = Ok () s2 ∧
  soundEnabled (this s2) = soundEnabled (this s) ∧
  (indicator_in_sync s →
     mutedClass (page s2) = mutedClass (page s) ∧
     iconClassName (page s2) = iconClassName (page s) ∧
     s2 = s).
Proof.
  intros s2. split; [reflexivity|]. split.
  - subst s2. simpl. apply negb_involutive.
  - intros [Hm Hi]. subst s2.
    destruct s as [c p b]. destruct c, p. simpl in *. subst.
    by destruct soundEnabled0.
Qed.

Lemma toggleSound_twice_witness :
  final ((toggleSound ;; toggleSound) sample_loaded) = sample_loaded.
Proof.
  destruct (toggleSound_twice sample_loaded) as (_ & _ & H).
  apply H. split; reflexivity.
Defined.

(** ** Accessibility *)

(** C10. On the expected page every call of [goToSlide] (the one
    [setupAccessibility] installs) returns with [aria-hidden] on each slide
    telling whether it is not the current one: the current slide carries
    ["false"], every other slide carries ["true"]. *)
Theorem goToSlide_aria_hidden n s :
  in_range s → length (slides (page s)) = 7%nat →
  ∃ s', goToSlide n s = Ok () s' ∧
    (∀ i sl, slides (page s') !! i = Some sl →
       ariaHidden sl =
         Some (if bool_decide (Z.of_nat i + 1 = currentSlide (this s'))
               then "false" else "true")) ∧
    (∃ sl, slides (page s') !! Z.to_nat (currentSlide (this s') - 1) = Some sl
           ∧ ariaHidden sl = Some "false").
Proof.
  intros Hr Hlen.
  destruct (goToSlide_spec n s Hr Hlen) as (s' & E & Hr' & Hlen' & _ & Ha & _).
  exists s'. split; [done|].
  assert (Hall : ∀ i sl, slides (page s') !! i = Some sl →
    ariaHidden sl =
      Some (if bool_decide (Z.of_nat i + 1 = currentSlide (this s'))
            then "false" else "true")).
  { intros i sl Hl. rewrite (Ha i sl Hl).
    by repeat case_bool_decide. }
  split; [exact Hall|].
  destruct Hr' as [_ Hc].
  destruct (lookup_lt_is_Some_2 (slides (page s'))
              (Z.to_nat (currentSlide (this s') - 1))) as [sl Hsl]; [lia|].
  exists sl. split; [done|].
  rewrite (Hall _ _ Hsl). rewrite bool_decide_eq_true_2 by lia. done.
Qed.

Lemma goToSlide_aria_hidden_witness :
  ∃ s', goToSlide 3 sample_loaded = Ok () s' ∧
    (∀ i sl, slides (page s') !! i = Some sl →
       ariaHidden sl =
         Some (if bool_decide (Z.of_nat i + 1 = currentSlide (this s'))
               then "false" else "true")) ∧
    (∃ sl, slides (page s') !! Z.to_nat (currentSlide (this s') - 1) = Some sl
           ∧ ariaHidden sl = Some "false").
Proof.
  apply (goToSlide_aria_hidden 3 sample_loaded).
  - exact sample_loaded_in_range.
  - reflexivity.
Defined.

(** * Further properties of the controller *)

(** ** Progress bar and navigation dots *)

Lemma bind_setTimeout {B} task delay (f : nat → M B) s :
  (setTimeout task delay ≫= f) s =
  f (nextTimer (browser s))
    (on_browser (λ b, set_nextTimer (S (nextTimer (browser s)))
       (set_timers (timers b ++ [mkTimer (nextTimer (browser s)) delay task]) b)) s).
Proof. reflexivity. Qed.

Lemma updateProgress_chrome : preserves chrome_in_sync updateProgress.
Proof. intros s [_ Hd]. split; [reflexivity | exact Hd]. Qed.

Lemma updateNavDots_sync s : dots_in_sync (final (updateNavDots s)).
Proof.
  intros i d. simpl. rewrite list_lookup_imap.
  destruct (navDots (page s) !! i); simpl; [|done]. by intros [= <-].
Qed.

Lemma updateNavDots_chrome : preserves chrome_in_sync updateNavDots.
Proof. intros s [Hp _]. split; [exact Hp | apply updateNavDots_sync]. Qed.

Lemma setTimeout_chrome task delay :
  preserves chrome_in_sync (setTimeout task delay).
Proof. intros s H. exact H. Qed.

#[global] Hint Resolve updateProgress_chrome updateNavDots_chrome
  setTimeout_chrome : pres.

(** Progress and dots are written right after the current slide changes,
    before anything that can throw. *)
Lemma goToSlide_method_chrome n : preserves chrome_in_sync (goToSlide_method n).
Proof.
  intros s Hs. unfold goToSlide_method. rewrite !bind_gets.
  destruct (_ || _ || _); [done|].
  assert (Hu : preserves chrome_in_sync
            (update_slide (currentSlide (this s) - 1) leave)) by pres.
  specialize (Hu s Hs).
  apply final_bind.
  - intros s' E. by rewrite E in Hu.
  - intros [] s' E. clear Hu.
    rewrite bind_modify, bind_setTimeout.
    unfold updateProgress at 1. rewrite bind_modify.
    unfold updateNavDots at 1. rewrite bind_modify.
    by_preservation. split; [reflexivity|].
    intros i d. simpl. rewrite list_lookup_imap.
    destruct (navDots (page s') !! i); simpl; [|done]. by intros [= <-].
Qed.
#[global] Hint Resolve goToSlide_method_chrome : pres.

Lemma step_chrome o : preserves chrome_in_sync (step o).
Proof.
  destruct o as [e|c]; [destruct e | destruct c]; simpl; pres.
Qed.

Lemma run_chrome ops s : chrome_in_sync s → chrome_in_sync (run ops s).
Proof.
  revert s. induction ops as [|o ops IH]; intros s Hs; simpl; [done|].
  by apply IH, step_chrome.
Qed.

Lemma constructor_chrome markup b : chrome_in_sync (final (constructor markup b)).
Proof.
  unfold constructor, init.
  unfold updateProgress at 1. rewrite bind_modify.
  unfold updateNavDots at 1. rewrite bind_modify.
  by_preservation. split; [reflexivity|].
  intros i d. simpl. rewrite list_lookup_imap.
  destruct (navDots markup !! i); simpl; [|done]. by intros [= <-].
Qed.

(** X2. On a page that has the elements the constructor fetches,
    whatever its slides and dots, in every state the controller reaches
    (after calls that throw for want of a slide too), the highlighted
    navigation dot is the one of the current slide and no other. *)
Theorem dots_always_current markup b ops i d :
  let s := run ops (final (constructor markup b)) in
  navDots (page s) !! i = Some d →
  (d = true ↔ Z.of_nat i + 1 = currentSlide (this s)).
Proof.
  intros s Hl.
  pose proof (run_chrome ops _ (constructor_chrome markup b)) as [_ Hd].
  rewrite (Hd i d Hl). apply bool_decide_eq_true.
Qed.

Lemma dots_always_current_witness :
  let s := run [OnEvent (TimerFires 1); OnCall (CallGoToSlide 3)]
             (final (constructor sample_markup sample_browser)) in
  true = true ↔ Z.of_nat 2 + 1 = currentSlide (this s).
Proof.
  refine (dots_always_current sample_markup sample_browser
            [OnEvent (TimerFires 1); OnCall (CallGoToSlide 3)] 2%nat true _).
  vm_compute. reflexivity.
Defined.

(** ** One navigation, in full *)

Lemma goToSlide_summary n s :
  in_range s → length (slides (page s)) = 7%nat →
  1 ≤ n ≤ 7 → n ≠ currentSlide (this s) →
  wp (goToSlide n) s (λ _ s', navigation_summary n s s').
Proof.
  intros [Ht Hc] Hlen Hn Hne. unfold goToSlide, goToSlide_method.
  wp_step. do 2 wp_step. do 2 wp_step.
  assert (G : bool_decide (n < 1) || bool_decide (n > totalSlides (this s))
              || bool_decide (n = currentSlide (this s)) = false).
  { apply goToSlide_guard. rewrite Ht. lia. }
  rewrite G. wp_step. unfold update_slide. wp_step.
  apply wp_slide_at; [lia | lia |]. intros _ _. cbv beta.
  wp_go.
  all: apply wp_slide_at; simpl; [lia | rewrite length_alter; lia |].
  all: intros _ _; cbv beta; wp_go.
  all: unfold navigation_summary, navigation_effects; simpl in *.
  all: repeat match goal with
       | H : bool_decide _ = _ |- _ => rewrite H
       | H : soundEnabled _ = _ |- _ => rewrite H
       | H : audioContext _ = _ |- _ => rewrite H
       | H : negb _ = _ |- _ => rewrite H
       end.
  all: try (rewrite <- !app_assoc; simpl).
  all: destruct (soundEnabled (this s)), (audioContext (browser s));
    try discriminate.
  all: repeat match goal with
       | H : bool_decide (_ ≠ _) = false |- _ =>
           apply bool_decide_eq_false, dec_stable in H
       end.
  all: by repeat split.
Qed.

(** ** Timers *)

Lemma preserves_and (P Q : State → Prop) {A} (m : M A) :
  preserves P m → preserves Q m → preserves (λ s, P s ∧ Q s) m.
Proof. intros HP HQ s [? ?]. split; [by apply HP | by apply HQ]. Qed.

Lemma NoDup_fmap_filter {A B} (f : A → B) (P : A → Prop)
    `{!∀ x, Decision (P x)} (l : list A) :
  NoDup (f <$> l) → NoDup (f <$> filter P l).
Proof.
  intros Hnd. eapply sublist_NoDup; [exact Hnd|].
  apply fmap_sublist, sublist_filter.
Qed.

Lemma Forall_filter_weak {A} (Q P : A → Prop) `{!∀ x, Decision (P x)}
    (l : list A) :
  Forall Q l → Forall Q (filter P l).
Proof.
  rewrite !Forall_forall. intros HQ x Hx.
  apply list_elem_of_filter in Hx as [_ Hx]. by apply HQ.
Qed.

Lemma setTimeout_fresh task delay : preserves timers_fresh (setTimeout task delay).
Proof.
  intros s (Hpos & Hids & Hnd & Han). unfold timers_fresh. simpl.
  split; [lia|]. split; [|split].
  - apply Forall_app. split.
    + eapply Forall_impl; [exact Hids|]. simpl. intros t Ht. lia.
    + constructor; [simpl; lia | constructor].
  - rewrite fmap_app. apply NoDup_app. split; [done|]. split.
    + intros x Hx Hin. apply list_elem_of_fmap in Hx as (t & -> & Ht).
      rewrite Forall_forall in Hids. specialize (Hids t Ht).
      simpl in Hin. apply list_elem_of_singleton in Hin. lia.
    + simpl. apply NoDup_singleton.
  - eapply Forall_impl; [exact Han|]. simpl. intros a Ha. lia.
Qed.

Lemma clearTimeout_fresh id : preserves timers_fresh (clearTimeout id).
Proof.
  intros s (Hpos & Hids & Hnd & Han). unfold timers_fresh. simpl.
  split; [done|]. split; [|split; [|done]].
  - by apply Forall_filter_weak.
  - by apply NoDup_fmap_filter.
Qed.

Lemma announceSlideChange_fresh : preserves timers_fresh announceSlideChange.
Proof.
  intros s (Hpos & Hids & Hnd & Han). unfold announceSlideChange.
  rewrite !bind_gets, bind_modify, bind_setTimeout. unfold timers_fresh. simpl.
  split; [lia|]. split; [|split].
  - apply Forall_app. split.
    + eapply Forall_impl; [exact Hids|]. simpl. intros t Ht. lia.
    + constructor; [simpl; lia | constructor].
  - rewrite fmap_app. apply NoDup_app. split; [done|]. split.
    + intros x Hx Hin. apply list_elem_of_fmap in Hx as (t & -> & Ht).
      rewrite Forall_forall in Hids. specialize (Hids t Ht).
      simpl in Hin. apply list_elem_of_singleton in Hin. lia.
    + simpl. apply NoDup_singleton.
  - apply Forall_app. split.
    + eapply Forall_impl; [exact Han|]. simpl. intros a Ha. lia.
    + constructor; [simpl; lia | constructor].
Qed.

Lemma removeAnnouncement_fresh node :
  preserves timers_fresh
    (modify (on_page (λ p, set_announcements
       (filter (λ a, a.1 ≠ node) (announcements p)) p))).
Proof.
  intros s (Hpos & Hids & Hnd & Han). unfold timers_fresh. simpl.
  split; [done|]. split; [done|]. split; [done|].
  by apply Forall_filter_weak.
Qed.

#[global] Hint Resolve setTimeout_fresh clearTimeout_fresh
  announceSlideChange_fresh removeAnnouncement_fresh : pres.

Lemma step_fresh o : preserves timers_fresh (step o).
Proof.
  destruct o as [e|c]; [destruct e | destruct c]; simpl; pres.
Qed.

(** *** The cursor-hide timer *)

Lemma setTimeout_tracked task delay :
  task ≠ CursorHide → preserves cursor_timer_tracked (setTimeout task delay).
Proof.
  intros Hne s Hs t Ht Htask. simpl in *.
  apply elem_of_app in Ht as [Ht|Ht]; [by apply Hs|].
  apply list_elem_of_singleton in Ht. subst t. done.
Qed.

Lemma clearTimeout_tracked id : preserves cursor_timer_tracked (clearTimeout id).
Proof.
  intros s Hs t Ht Htask. simpl in *.
  apply list_elem_of_filter in Ht as [_ Ht]. by apply Hs.
Qed.

#[global] Hint Extern 1 (_ ≠ CursorHide) => discriminate : pres.
#[global] Hint Resolve setTimeout_tracked clearTimeout_tracked : pres.

Lemma setTimeout_cursor task delay :
  task ≠ CursorHide → preserves cursor_inv (setTimeout task delay).
Proof.
  intros Hne.
  exact (preserves_and timers_fresh cursor_timer_tracked _
           (setTimeout_fresh task delay) (setTimeout_tracked task delay Hne)).
Qed.

Lemma clearTimeout_cursor id : preserves cursor_inv (clearTimeout id).
Proof.
  exact (preserves_and timers_fresh cursor_timer_tracked _
           (clearTimeout_fresh id) (clearTimeout_tracked id)).
Qed.

Lemma announceSlideChange_cursor : preserves cursor_inv announceSlideChange.
Proof.
  refine (preserves_and timers_fresh cursor_timer_tracked _
            announceSlideChange_fresh _).
  pres.
Qed.

Lemma removeAnnouncement_cursor node :
  preserves cursor_inv
    (modify (on_page (λ p, set_announcements
       (filter (λ a, a.1 ≠ node) (announcements p)) p))).
Proof.
  refine (preserves_and timers_fresh cursor_timer_tracked _
            (removeAnnouncement_fresh node) _).
  by intros s Hs.
Qed.

Lemma filter_none {A} (P : A → Prop) `{!∀ x, Decision (P x)} (l : list A) :
  (∀ x, x ∈ l → ¬ P x) → filter P l = [].
Proof.
  intros Hl. induction l as [|x l IH]; [done|].
  rewrite filter_cons. destruct (decide (P x)) as [HP|_].
  - destruct (Hl x); [left | done].
  - apply IH. intros y Hy. apply Hl. by right.
Qed.

(** After [clearCursorTimeout] no cursor-hide timer is pending. *)
Lemma clearCursorTimeout_clears s :
  cursor_inv s →
  ∃ s', clearCursorTimeout s = Ok () s' ∧ cursor_inv s' ∧
    pending CursorHide s' = [] ∧
    isPresentationMode (this s') = isPresentationMode (this s) ∧
    page s' = page s.
Proof.
  intros [Hf Ht]. unfold clearCursorTimeout. rewrite bind_gets.
  destruct (cursorTimeout (this s)) as [id|] eqn:Ec.
  - case_bool_decide as Hid.
    + eexists. split; [reflexivity|].
      assert (Hnone : pending CursorHide
                (on_this (set_cursorTimeout None)
                   (on_browser (λ b, set_timers
                      (filter (λ t, timerId t ≠ id) (timers b)) b) s)) = []).
      { apply filter_none. intros t Hin Htask. simpl in Hin.
        apply list_elem_of_filter in Hin as [Hne Hin].
        specialize (Ht t Hin Htask). congruence. }
      split; [|by repeat split]. split.
      * exact (clearTimeout_fresh id s Hf).
      * intros t Hin Htask. exfalso.
        assert (Hp : t ∈ pending CursorHide
                  (on_this (set_cursorTimeout None)
                     (on_browser (λ b, set_timers
                        (filter (λ t, timerId t ≠ id) (timers b)) b) s))).
        { by apply list_elem_of_filter. }
        rewrite Hnone in Hp. by apply not_elem_of_nil in Hp.
    + exists s. split; [reflexivity|]. split; [done|]. split; [|done].
      apply filter_none. intros t Hin Htask.
      specialize (Ht t Hin Htask).
      destruct Hf as (_ & Hids & _). rewrite Forall_forall in Hids.
      specialize (Hids t Hin). simplify_eq. lia.
  - exists s. split; [reflexivity|]. split; [done|]. split; [|done].
    apply filter_none. intros t Hin Htask.
    specialize (Ht t Hin Htask). congruence.
Qed.

(** After [startCursorTimeout] exactly one cursor-hide timer is pending, of
    3000 ms, and [cursorTimeout] holds its id. *)
Lemma startCursorTimeout_one s :
  cursor_inv s →
  ∃ s' id, startCursorTimeout s = Ok () s' ∧ cursor_inv s' ∧
    pending CursorHide s' = [mkTimer id 3000 CursorHide] ∧
    cursorTimeout (this s') = Some id ∧
    isPresentationMode (this s') = isPresentationMode (this s) ∧
    page s' = page s.
Proof.
  intros Hs. unfold startCursorTimeout.
  destruct (clearCursorTimeout_clears s Hs) as (s1 & E & [Hf Ht] & Hp & Hm & Hpg).
  rewrite (bind_ok _ _ _ _ _ E), bind_setTimeout.
  eexists _, _. split; [reflexivity|].
  split; [|split; [|by repeat split]].
  - split; [exact (setTimeout_fresh CursorHide 3000 s1 Hf)|].
    intros t Hin Htask. simpl in *.
    apply elem_of_app in Hin as [Hin|Hin].
    + assert (Hin' : t ∈ pending CursorHide s1) by by apply list_elem_of_filter.
      rewrite Hp in Hin'. by apply not_elem_of_nil in Hin'.
    + apply list_elem_of_singleton in Hin. by subst t.
  - unfold pending in *. simpl. rewrite filter_app, Hp. simpl.
    rewrite filter_cons. by rewrite decide_True.
Qed.

Lemma clearCursorTimeout_cursor : preserves cursor_inv clearCursorTimeout.
Proof.
  intros s Hs. destruct (clearCursorTimeout_clears s Hs) as (s' & E & H & _).
  by rewrite E.
Qed.

Lemma startCursorTimeout_cursor : preserves cursor_inv startCursorTimeout.
Proof.
  intros s Hs. destruct (startCursorTimeout_one s Hs) as (s' & id & E & H & _).
  by rewrite E.
Qed.

#[global] Hint Resolve setTimeout_cursor clearTimeout_cursor
  announceSlideChange_cursor removeAnnouncement_cursor
  clearCursorTimeout_cursor startCursorTimeout_cursor : pres.

Lemma step_cursor o : preserves cursor_inv (step o).
Proof.
  destruct o as [e|c]; [destruct e | destruct c]; simpl; pres.
Qed.

Lemma run_cursor ops s : cursor_inv s → cursor_inv (run ops s).
Proof.
  revert s. induction ops as [|o ops IH]; intros s Hs; simpl; [done|].
  by apply IH, step_cursor.
Qed.

Lemma constructor_cursor markup b :
  fresh_start markup b → cursor_inv (final (constructor markup b)).
Proof.
  intros (Ht & Hn & Ha). unfold constructor. by_preservation.
  split.
  - unfold timers_fresh. simpl. rewrite Ht, Ha. simpl.
    split; [done|]. split; [constructor|]. split; constructor.
  - intros t Hin. simpl in Hin. rewrite Ht in Hin.
    by apply not_elem_of_nil in Hin.
Qed.

Lemma one_id_at_most_one (l : list Timer) (id : nat) :
  NoDup (timerId <$> l) → (∀ t, t ∈ l → timerId t = id) → (length l ≤ 1)%nat.
Proof.
  intros Hnd Hall. destruct l as [|a [|b l]]; simpl; [lia | lia |].
  exfalso. simpl in Hnd. apply NoDup_cons in Hnd as [Hnot _].
  apply Hnot. rewrite (Hall a), <- (Hall b); [left | by right; left | by left].
Qed.

Lemma cursor_inv_at_most_one s :
  cursor_inv s → (length (pending CursorHide s) ≤ 1)%nat.
Proof.
  intros [(_ & _ & Hnd & _) Ht].
  destruct (cursorTimeout (this s)) as [id|] eqn:Ec.
  - apply (one_id_at_most_one _ id).
    + by apply NoDup_fmap_filter.
    + intros t Hin. apply list_elem_of_filter in Hin as [Htask Hin].
      specialize (Ht t Hin Htask). congruence.
  - unfold pending. rewrite filter_none; [simpl; lia|]. intros t Hin Htask.
    specialize (Ht t Hin Htask). congruence.
Qed.

(** X3. Only one cursor-hide timer is ever pending: in every state the
    controller reaches after a page load, whatever the sequence of key
    presses, mouse moves, fullscreen changes, calls and timer callbacks,
    at most one of the pending timers is the 3000 ms cursor-hide one. *)
Theorem at_most_one_cursor_timer markup b ops :
  fresh_start markup b →
  (length (pending CursorHide (run ops (final (constructor markup b)))) ≤ 1)%nat.
Proof.
  intros Hstart. by apply cursor_inv_at_most_one, run_cursor, constructor_cursor.
Qed.

Lemma sample_fresh_start : fresh_start sample_markup sample_browser.
Proof. by repeat split; simpl; try lia. Qed.

Lemma at_most_one_cursor_timer_witness :
  (length (pending CursorHide
     (run [OnEvent (TimerFires 1); OnEvent (KeyDown "p"); OnEvent MouseMove;
           OnEvent MouseMove]
        (final (constructor sample_markup sample_browser)))) ≤ 1)%nat.
Proof.
  apply (at_most_one_cursor_timer sample_markup sample_browser).
  exact sample_fresh_start.
Defined.

Lemma NoDup_fmap_eq {A B} (f : A → B) (l : list A) x y :
  NoDup (f <$> l) → x ∈ l → y ∈ l → f x = f y → x = y.
Proof.
  induction l as [|a l IH]; intros Hnd Hx Hy Hf.
  - by apply not_elem_of_nil in Hx.
  - simpl in Hnd. apply NoDup_cons in Hnd as [Hnot Hnd].
    apply elem_of_cons in Hx as [->|Hx]; apply elem_of_cons in Hy as [->|Hy].
    + done.
    + destruct Hnot. rewrite Hf. by apply list_elem_of_fmap_2.
    + destruct Hnot. rewrite <- Hf. by apply list_elem_of_fmap_2.
    + by apply IH.
Qed.

(** A pending timer fires: it is the one with that id, it leaves the list
    and its callback runs. *)
Lemma fireTimer_pending id t s :
  NoDup (timerId <$> timers (browser s)) →
  t ∈ timers (browser s) → timerId t = id →
  fireTimer id s = (clearTimeout id ;; runTask (timerTask t)) s.
Proof.
  intros Hnd Hin Hid. unfold fireTimer. rewrite bind_gets.
  destruct (list_find (λ t0, timerId t0 = id) (timers (browser s)))
    as [[i t']|] eqn:E.
  - apply list_find_Some in E as (Hl & Hid' & _).
    apply list_elem_of_lookup_2 in Hl.
    assert (t' = t) as -> by (eapply NoDup_fmap_eq; eauto; congruence).
    reflexivity.
  - apply list_find_None in E. rewrite Forall_forall in E.
    by destruct (E t Hin).
Qed.

(** A timer that is not pending (never set, fired or cleared) does not
    run. *)
Lemma fireTimer_not_pending id s :
  (∀ t, t ∈ timers (browser s) → timerId t ≠ id) → fireTimer id s = Ok () s.
Proof.
  intros Hno. unfold fireTimer. rewrite bind_gets.
  destruct (list_find (λ t0, timerId t0 = id) (timers (browser s)))
    as [[i t']|] eqn:E; [|done].
  apply list_find_Some in E as (Hl & Hid' & _).
  apply list_elem_of_lookup_2 in Hl. by destruct (Hno t' Hl).
Qed.

(** ** Presentation mode and the cursor *)

(** X4. Leaving presentation mode cancels the cursor-hide timer: after
    [exitPresentationMode] the mode and the class are off and no cursor-hide
    timer is pending, so the cursor is not hidden later. *)
Theorem exitPresentationMode_cancels s :
  cursor_inv s →
  ∃ s', exitPresentationMode s = Ok () s' ∧
    isPresentationMode (this s') = false ∧
    presentationModeClass (page s') = false ∧
    pending CursorHide s' = [].
Proof.
  intros Hs. unfold exitPresentationMode. rewrite !bind_modify.
  destruct (clearCursorTimeout_clears
              (on_page (set_presentationModeClass false)
                 (on_this (set_isPresentationMode false) s)))
    as (s' & E & _ & Hp & Hm & Hpg); [exact Hs|].
  exists s'. split; [exact E|]. rewrite Hm, Hpg. by repeat split.
Qed.

(** The sample page in presentation mode, after a mouse move. *)
Lemma sample_presenting_cursor :
  cursor_inv (run [OnEvent (TimerFires 1); OnEvent (KeyDown "p")]
                (final (constructor sample_markup sample_browser))).
Proof. apply run_cursor, constructor_cursor, sample_fresh_start. Qed.

Lemma exitPresentationMode_cancels_witness :
  ∃ s', exitPresentationMode
          (run [OnEvent (TimerFires 1); OnEvent (KeyDown "p")]
             (final (constructor sample_markup sample_browser))) = Ok () s' ∧
    isPresentationMode (this s') = false ∧
    presentationModeClass (page s') = false ∧
    pending CursorHide s' = [].
Proof.
  apply (exitPresentationMode_cancels
           (run [OnEvent (TimerFires 1); OnEvent (KeyDown "p")]
              (final (constructor sample_markup sample_browser)))).
  exact sample_presenting_cursor.
Defined.



(** *** The cursor is hidden only in presentation mode *)

(** Properties that do not read the timers are kept by [setTimeout]. *)
#[global] Hint Extern 5 (preserves _ (setTimeout _ _)) =>
  (let H := fresh in intros ? H; exact H) : pres.

Lemma enterPresentationMode_hidden :
  preserves cursor_hidden_in_mode enterPresentationMode.
Proof.
  intros s _. unfold enterPresentationMode. rewrite !bind_modify.
  assert (H : preserves (λ s, isPresentationMode (this s) = true)
                startCursorTimeout) by pres.
  intros _. by apply H.
Qed.

Lemma exitPresentationMode_hidden :
  preserves cursor_hidden_in_mode exitPresentationMode.
Proof.
  intros s _. unfold exitPresentationMode. rewrite !bind_modify.
  assert (H : preserves (λ s, presentationModeClass (page s) = false)
                clearCursorTimeout) by pres.
  intros Hc. rewrite H in Hc; done.
Qed.

Lemma handleMouseMove_hidden : preserves cursor_hidden_in_mode handleMouseMove.
Proof.
  intros s Hs. unfold handleMouseMove. rewrite bind_gets.
  destruct (isPresentationMode (this s)) eqn:Hm; [|exact Hs].
  rewrite bind_modify.
  assert (H : preserves (λ s, isPresentationMode (this s) = true)
                startCursorTimeout) by pres.
  intros _. by apply H.
Qed.

Lemma runTask_hidden t : preserves cursor_hidden_in_mode (runTask t).
Proof.
  destruct t; try (simpl; pres).
  intros s Hs. simpl. rewrite bind_gets.
  destruct (isPresentationMode (this s)) eqn:Hm; [|exact Hs].
  by intros _.
Qed.

#[global] Hint Resolve enterPresentationMode_hidden
  exitPresentationMode_hidden handleMouseMove_hidden runTask_hidden : pres.

Lemma step_hidden o : preserves cursor_hidden_in_mode (step o).
Proof.
  destruct o as [e|c]; [destruct e | destruct c]; simpl; pres.
Qed.

Lemma run_hidden ops s :
  cursor_hidden_in_mode s → cursor_hidden_in_mode (run ops s).
Proof.
  revert s. induction ops as [|o ops IH]; intros s Hs; simpl; [done|].
  by apply IH, step_hidden.
Qed.

(** X6. When the markup does not start with the class [presentation-mode],
    the class is on only while [isPresentationMode] is true, in every state
    the controller reaches: the cursor is never hidden outside presentation
    mode, whatever timers are still pending. *)
Theorem cursor_hidden_only_in_presentation_mode markup b ops :
  presentationModeClass markup = false →
  let s := run ops (final (constructor markup b)) in
  presentationModeClass (page s) = true → isPresentationMode (this s) = true.
Proof.
  intros Hm s. apply run_hidden. unfold constructor. by_preservation.
  intros Hc. simpl in Hc. congruence.
Qed.

Lemma cursor_hidden_only_in_presentation_mode_witness :
  isPresentationMode
    (this (run [OnEvent (TimerFires 1); OnEvent (KeyDown "p")]
             (final (constructor sample_markup sample_browser)))) = true.
Proof.
  apply (cursor_hidden_only_in_presentation_mode sample_markup sample_browser
           [OnEvent (TimerFires 1); OnEvent (KeyDown "p")] eq_refl).
  vm_compute. reflexivity.
Defined.

(** ** Navigation: fragment, effects, announcement, transition *)

Lemma update_slide_ok k f s :
  0 ≤ k → (Z.to_nat k < length (slides (page s)))%nat →
  update_slide k f s =
  Ok () (on_page (λ p, set_slides (alter f (Z.to_nat k) (slides p)) p) s).
Proof.
  intros Hk Hlen. unfold update_slide.
  apply lookup_lt_is_Some_2 in Hlen as [sl Hsl].
  assert (E : slide_at k s = Ok sl s).
  { unfold slide_at. rewrite bool_decide_eq_true_2 by done. by rewrite Hsl. }
  by rewrite (bind_ok _ _ _ _ _ E).
Qed.

Lemma bind_update_slide {B} k f (g : unit → M B) s :
  0 ≤ k → (Z.to_nat k < length (slides (page s)))%nat →
  (update_slide k f ≫= g) s =
  g () (on_page (λ p, set_slides (alter f (Z.to_nat k) (slides p)) p) s).
Proof.
  intros Hk Hlen. by rewrite (bind_ok _ _ _ _ _ (update_slide_ok k f s Hk Hlen)).
Qed.

Lemma filter_all {A} (P : A → Prop) `{!∀ x, Decision (P x)} (l : list A) :
  (∀ x, x ∈ l → P x) → filter P l = l.
Proof.
  intros Hl. induction l as [|x l IH]; [done|].
  rewrite filter_cons, decide_True by (apply Hl; left).
  f_equal. apply IH. intros y Hy. apply Hl. by right.
Qed.

(** X7. A navigation to another slide of the deck returns with the
    fragment [#slideN], and its effects are, in this order: the URL is
    replaced (only when the fragment was not yet [#slideN]), the animations
    of slide N are reset, the reveal of slide N is started (slides 2 to 5
    only), and a tone is attempted (only when sound is enabled; where audio
    is unsupported a console message takes its place). *)
Theorem navigation_fragment_and_effects n s :
  in_range s → length (slides (page s)) = 7%nat →
  1 ≤ n ≤ 7 → n ≠ currentSlide (this s) →
  ∃ s', goToSlide n s = Ok () s' ∧
    locationHash (page s') = "#slide" +:+ pretty n ∧
    trace (browser s') = (trace (browser s) ++ navigation_effects n s)%list.
Proof.
  intros Hr Hlen Hn Hne.
  destruct (wp_elim _ _ _ (goToSlide_summary n s Hr Hlen Hn Hne))
    as ([] & s' & E & _ & _ & Hh & _ & _ & _ & Htr).
  by exists s'.
Qed.

Lemma navigation_fragment_and_effects_witness :
  ∃ s', goToSlide 2 sample_loaded = Ok () s' ∧
    locationHash (page s') = "#slide" +:+ pretty 2 ∧
    trace (browser s') =
      (trace (browser sample_loaded) ++ navigation_effects 2 sample_loaded)%list.
Proof.
  apply (navigation_fragment_and_effects 2 sample_loaded).
  - exact sample_loaded_in_range.
  - reflexivity.
  - lia.
  - vm_compute. discriminate.
Defined.

Lemma goToSlide_fresh n : preserves timers_fresh (goToSlide n).
Proof. pres. Qed.

(** X8. A navigation announces the slide to screen readers and cleans up
    after itself: it appends one live region with the text
    ["Slide N of 7"], and when that region's own timer fires the region is
    removed and the announcements are as before the navigation. *)
Theorem announcement_removed_by_its_timer n s :
  in_range s → length (slides (page s)) = 7%nat → timers_fresh s →
  1 ≤ n ≤ 7 → n ≠ currentSlide (this s) →
  ∃ s1 node s2,
    goToSlide n s = Ok () s1 ∧
    announcements (page s1) =
      (announcements (page s) ++ [(node, "Slide " +:+ pretty n +:+ " of 7")])%list ∧
    mkTimer node 1000 (AnnouncementRemove node) ∈ timers (browser s1) ∧
    fireTimer node s1 = Ok () s2 ∧
    announcements (page s2) = announcements (page s).
Proof.
  intros Hr Hlen Hf Hn Hne.
  destruct (wp_elim _ _ _ (goToSlide_summary n s Hr Hlen Hn Hne))
    as ([] & s1 & E & _ & _ & _ & Han & Htm & _ & _).
  pose proof (goToSlide_fresh n s Hf) as Hf1. rewrite E in Hf1. simpl in Hf1.
  destruct Hr as [Ht _]. rewrite Ht in Han.
  set (node := S (nextTimer (browser s))) in *.
  assert (Hin : mkTimer node 1000 (AnnouncementRemove node) ∈ timers (browser s1)).
  { rewrite Htm. apply elem_of_app. right. right. left. }
  exists s1, node. eexists. split; [exact E|]. split; [exact Han|].
  split; [exact Hin|].
  destruct Hf1 as (_ & _ & Hnd & _).
  rewrite (fireTimer_pending node _ s1 Hnd Hin eq_refl).
  split; [reflexivity|]. simpl. rewrite Han, filter_app.
  rewrite filter_all.
  - rewrite filter_cons, decide_False by (simpl; intros H; by apply H).
    apply app_nil_r.
  - intros a Ha. destruct Hf as (_ & _ & _ & Hnodes).
    rewrite Forall_forall in Hnodes. specialize (Hnodes a Ha).
    subst node. lia.
Qed.

Lemma sample_loaded_fresh : timers_fresh sample_loaded.
Proof.
  unfold timers_fresh. vm_compute.
  split; [lia|]. split; [|split].
  - constructor; [lia | constructor].
  - apply NoDup_singleton.
  - constructor.
Qed.

Lemma announcement_removed_by_its_timer_witness :
  ∃ s1 node s2,
    goToSlide 4 sample_loaded = Ok () s1 ∧
    announcements (page s1) =
      (announcements (page sample_loaded)
         ++ [(node, "Slide " +:+ pretty 4 +:+ " of 7")])%list ∧
    mkTimer node 1000 (AnnouncementRemove node) ∈ timers (browser s1) ∧
    fireTimer node s1 = Ok () s2 ∧
    announcements (page s2) = announcements (page sample_loaded).
Proof.
  apply (announcement_removed_by_its_timer 4 sample_loaded).
  - exact sample_loaded_in_range.
  - reflexivity.
  - exact sample_loaded_fresh.
  - lia.
  - vm_compute. discriminate.
Defined.

Lemma fireTimer_fresh id : preserves timers_fresh (fireTimer id).
Proof. exact (step_fresh (OnEvent (TimerFires id))). Qed.

(** X9. A transition completes: from a state where no transition is under
    way, a navigation to another slide of the deck followed by its 50 ms
    timer and by the 800 ms timer that one sets ends with slide N current
    and active, and with no slide marked as leaving. *)
Theorem transition_completes n s :
  in_range s → length (slides (page s)) = 7%nat → timers_fresh s →
  settled s → 1 ≤ n ≤ 7 → n ≠ currentSlide (this s) →
  let s' := run (transition_run n s) s in
  currentSlide (this s') = n ∧ settled s'.
Proof.
  intros Hr Hlen Hf Hset Hn Hne.
  destruct (wp_elim _ _ _ (goToSlide_summary n s Hr Hlen Hn Hne))
    as ([] & s1 & E1 & Hthis & Hsl & _ & _ & Htm & Hnext & _).
  pose proof (goToSlide_fresh n s Hf) as Hf1. rewrite E1 in Hf1. simpl in Hf1.
  set (id0 := nextTimer (browser s)) in *.
  set (cur := currentSlide (this s)) in *.
  assert (Hlen1 : length (slides (page s1)) = 7%nat)
    by (by rewrite Hsl, length_imap, length_alter).
  assert (Hcur1 : currentSlide (this s1) = n) by (by rewrite Hthis).
  (* the 50 ms timer *)
  assert (Hin1 : mkTimer id0 50 (SlideEnter cur) ∈ timers (browser s1)).
  { rewrite Htm. apply elem_of_app. right. left. }
  assert (E2 : ∃ s2, fireTimer id0 s1 = Ok () s2 ∧ this s2 = this s1 ∧
            slides (page s2) = alter enter (Z.to_nat (n - 1)) (slides (page s1)) ∧
            mkTimer (S (S id0)) 800 (SlideCleanup cur) ∈ timers (browser s2)).
  { destruct Hf1 as (_ & _ & Hnd & _).
    rewrite (fireTimer_pending id0 _ s1 Hnd Hin1 eq_refl).
    unfold clearTimeout. rewrite bind_modify. simpl runTask.
    rewrite bind_gets. simpl currentSlide. rewrite Hcur1.
    rewrite bind_update_slide by (simpl; lia).
    rewrite bind_setTimeout. eexists. split; [reflexivity|].
    split; [reflexivity|]. split; [reflexivity|].
    simpl. rewrite Hnext. apply elem_of_app. right. left. }
  destruct E2 as (s2 & E2 & Hthis2 & Hsl2 & Hin2).
  pose proof (fireTimer_fresh id0 s1 Hf1) as Hf2. rewrite E2 in Hf2. simpl in Hf2.
  assert (Hlen2 : length (slides (page s2)) = 7%nat)
    by (by rewrite Hsl2, length_alter).
  (* the 800 ms timer *)
  assert (E3 : fireTimer (S (S id0)) s2 =
            Ok () (on_page (λ p, set_slides
                     (alter (set_prev false) (Z.to_nat (cur - 1)) (slides p)) p)
                     (on_browser (λ b, set_timers
                        (filter (λ t, timerId t ≠ S (S id0)) (timers b)) b) s2))).
  { destruct Hf2 as (_ & _ & Hnd & _).
    rewrite (fireTimer_pending (S (S id0)) _ s2 Hnd Hin2 eq_refl).
    unfold clearTimeout. rewrite bind_modify. simpl runTask.
    destruct Hr as [_ Hc].
    by rewrite update_slide_ok by (simpl; lia). }
  unfold transition_run. fold id0. simpl run. rewrite E1. simpl final.
  rewrite E2. simpl final. rewrite E3. simpl final.
  split; [simpl; by rewrite Hthis2|].
  intros i sl. simpl. rewrite Hthis2, Hcur1, Hsl2, Hsl.
  destruct Hr as [_ Hc]. fold cur in Hc.
  assert (Hlook : ∀ sl0, slides (page s) !! i = Some sl0 →
            active sl0 = bool_decide (Z.of_nat i + 1 = cur) ∧ prev sl0 = false)
    by (intros sl0 E0; exact (Hset i sl0 E0)).
  destruct (decide (Z.to_nat (cur - 1) = i)) as [Hi1|Hi1];
    destruct (decide (Z.to_nat (n - 1) = i)) as [Hi2|Hi2].
  - lia.
  - subst i. rewrite list_lookup_alter_eq, list_lookup_alter_ne by done.
    rewrite list_lookup_imap, list_lookup_alter_eq.
    destruct (slides (page s) !! Z.to_nat (cur - 1)) as [sl0|]; [|done].
    destruct (Hlook sl0 eq_refl) as [Hact Hprev].
    simpl. intros [= <-]. simpl. split; [|done].
    symmetry. apply bool_decide_eq_false_2. lia.
  - subst i. rewrite list_lookup_alter_ne, list_lookup_alter_eq by done.
    rewrite list_lookup_imap, list_lookup_alter_ne by done.
    destruct (slides (page s) !! Z.to_nat (n - 1)) as [sl0|]; [|done].
    simpl. intros [= <-]. simpl. split; [|done].
    symmetry. apply bool_decide_eq_true_2. lia.
  - rewrite !list_lookup_alter_ne by done.
    rewrite list_lookup_imap, list_lookup_alter_ne by done.
    destruct (slides (page s) !! i) as [sl0|]; [|done].
    destruct (Hlook sl0 eq_refl) as [Hact Hprev].
    simpl. intros [= <-]. simpl. rewrite Hact, Hprev. split; [|done].
    rewrite bool_decide_eq_false_2 by lia.
    symmetry. apply bool_decide_eq_false_2. lia.
Qed.

Lemma sample_loaded_settled : settled sample_loaded.
Proof.
  intros i sl.
  do 7 (destruct i as [|i]; [intros [= <-]; split; reflexivity|]).
  discriminate.
Qed.

Lemma transition_completes_witness :
  let s' := run (transition_run 4 sample_loaded) sample_loaded in
  currentSlide (this s') = 4 ∧ settled s'.
Proof.
  apply (transition_completes 4 sample_loaded).
  - exact sample_loaded_in_range.
  - reflexivity.
  - exact sample_loaded_fresh.
  - exact sample_loaded_settled.
  - lia.
  - vm_compute. discriminate.
Defined.

(** ** Keyboard *)

Lemma is_key_false key keys : key ∉ keys → is_key key keys = false.
Proof. intros H. by apply bool_decide_eq_false_2. Qed.

(** Evaluates the tests of [handleKeyDown] on a key that is known. *)
Ltac eval_keys :=
  repeat match goal with
  | |- context [is_key ?k ?l] =>
      let b := eval vm_compute in (is_key k l) in
      change (is_key k l) with b
  | |- context [Js.parseInt ?k] =>
      let v := eval vm_compute in (Js.parseInt k) in
      change (Js.parseInt k) with v
  end;
  cbv iota.

(** X10. A key that is not one of the nineteen handled ones does nothing at
    all, loaded or not: the state is unchanged and the default action of
    the browser is not suppressed. *)
Theorem unhandled_key_ignored key s :
  key ∉ handled_keys → handleKeyDown key s = Ok () s.
Proof.
  intros Hk. unfold handleKeyDown. rewrite bind_gets.
  destruct (negb (isLoaded (this s))); [done|].
  repeat (rewrite is_key_false;
          [|intros Hin; apply Hk;
            repeat (apply elem_of_cons in Hin as [->|Hin]);
            try (by apply not_elem_of_nil in Hin);
            by apply (bool_decide_unpack _)]).
  reflexivity.
Qed.

Lemma unhandled_key_ignored_witness :
  handleKeyDown "Tab" sample_loaded = Ok () sample_loaded.
Proof.
  apply (unhandled_key_ignored "Tab" sample_loaded).
  apply (bool_decide_unpack _). vm_compute. exact I.
Defined.

Lemma emit_extends pre e : preserves (trace_extends pre) (emit e).
Proof.
  intros s [rest Hs]. exists (rest ++ [e])%list. simpl.
  by rewrite Hs, app_assoc.
Qed.
#[global] Hint Resolve emit_extends : pres.

Lemma step_extends pre o : preserves (trace_extends pre) (step o).
Proof.
  destruct o as [e|c]; [destruct e | destruct c]; simpl; pres.
Qed.

(** X11. Every handled key suppresses the default action of the browser
    before doing anything else: once the page is loaded, the first effect
    of [handleKeyDown] on one of the nineteen handled keys is
    [preventDefault], also where the key then changes nothing (next on the
    last slide, a digit for the current slide). *)
Theorem handled_key_prevents_default key s :
  key ∈ handled_keys → isLoaded (this s) = true →
  ∃ rest, trace (browser (final (handleKeyDown key s))) =
            (trace (browser s) ++ PreventDefault :: rest)%list.
Proof.
  intros Hk Hl.
  enough (H : trace_extends (trace (browser s) ++ [PreventDefault])
                (final (handleKeyDown key s))).
  { destruct H as [rest H]. exists rest. by rewrite H, <- app_assoc. }
  unfold handleKeyDown. rewrite bind_gets, Hl. cbn [negb].
  unfold handled_keys in Hk.
  repeat (apply elem_of_cons in Hk as [->|Hk]);
    try (by apply not_elem_of_nil in Hk).
  all: eval_keys; unfold emit at 1; rewrite bind_modify.
  all: by_preservation; exists []; simpl; by rewrite app_nil_r.
Qed.

Lemma handled_key_prevents_default_witness :
  ∃ rest, trace (browser (final (handleKeyDown "End" sample_last))) =
            (trace (browser sample_last) ++ PreventDefault :: rest)%list.
Proof.
  apply (handled_key_prevents_default "End" sample_last).
  - apply (bool_decide_unpack _). vm_compute. exact I.
  - vm_compute. reflexivity.
Defined.

(** X12. Direct jumps from the keyboard: on the loaded page, the digit key
    k (1 to 7) makes slide k the current one, Home the first and End the
    last. *)
Theorem keys_jump_to_slide s :
  isLoaded (this s) = true → in_range s → length (slides (page s)) = 7%nat →
  (∀ k, 1 ≤ k ≤ 7 →
     ∃ s', handleKeyDown (pretty k) s = Ok () s' ∧ currentSlide (this s') = k) ∧
  (∃ s', handleKeyDown "Home" s = Ok () s' ∧ currentSlide (this s') = 1) ∧
  (∃ s', handleKeyDown "End" s = Ok () s' ∧ currentSlide (this s') = 7).
Proof.
  intros Hl Hr Hlen.
  assert (Hgo : ∀ n e, 1 ≤ n ≤ 7 →
            ∃ s', goToSlide n (on_browser (λ b, set_trace (trace b ++ [e]) b) s)
                  = Ok () s' ∧ currentSlide (this s') = n).
  { intros n e Hn.
    destruct (goToSlide_spec n (on_browser (λ b, set_trace (trace b ++ [e]) b) s)
                Hr Hlen) as (s' & E & _ & _ & _ & _ & Hc & _).
    exists s'. split; [exact E|]. by rewrite Hc, bool_decide_eq_true_2. }
  split; [|split].
  - intros k Hk.
    assert (Hcases : k = 1 ∨ k = 2 ∨ k = 3 ∨ k = 4 ∨ k = 5 ∨ k = 6 ∨ k = 7)
      by lia.
    unfold handleKeyDown. rewrite bind_gets, Hl. cbn [negb].
    destruct Hr as [Ht Hc].
    destruct Hcases as [->|[->|[->|[->|[->|[->| ->]]]]]].
    all: eval_keys; unfold emit at 1; rewrite bind_modify, bind_gets.
    all: cbn [totalSlides this on_browser]; rewrite Ht.
    all: rewrite bool_decide_eq_true_2 by lia.
    all: apply Hgo; lia.
  - unfold handleKeyDown. rewrite bind_gets, Hl. cbn [negb].
    eval_keys. unfold emit at 1. rewrite bind_modify. apply Hgo. lia.
  - unfold handleKeyDown. rewrite bind_gets, Hl. cbn [negb].
    eval_keys. unfold emit at 1. rewrite bind_modify, bind_gets.
    destruct Hr as [Ht Hc]. cbn [totalSlides this on_browser]. rewrite Ht.
    apply Hgo. lia.
Qed.

Lemma sample_loaded_isLoaded : isLoaded (this sample_loaded) = true.
Proof. vm_compute. reflexivity. Qed.

Lemma keys_jump_to_slide_witness :
  (∃ s', handleKeyDown (pretty 5) sample_loaded = Ok () s'
         ∧ currentSlide (this s') = 5) ∧
  (∃ s', handleKeyDown "End" sample_loaded = Ok () s'
         ∧ currentSlide (this s') = 7).
Proof.
  destruct (keys_jump_to_slide sample_loaded sample_loaded_isLoaded
              sample_loaded_in_range eq_refl) as (Hdigit & _ & Hend).
  split; [apply Hdigit; lia | exact Hend].
Defined.

(** X13. A click on the dot of index i, on a page with the seven dots and
    slides, makes slide i + 1 the current one, whether the page is loaded
    or not. *)
Theorem dot_click_navigates i s :
  in_range s → length (slides (page s)) = 7%nat →
  length (navDots (page s)) = 7%nat → (i < 7)%nat →
  ∃ s', dispatch (DotClick i) s = Ok () s' ∧
    currentSlide (this s') = Z.of_nat i + 1.
Proof.
  intros Hr Hlen Hdots Hi. simpl. rewrite bind_gets, Hdots.
  rewrite bool_decide_eq_true_2 by done.
  destruct (goToSlide_spec (Z.of_nat i + 1) s Hr Hlen)
    as (s' & E & _ & _ & _ & _ & Hc & _).
  exists s'. split; [exact E|]. rewrite Hc, bool_decide_eq_true_2; [done | lia].
Qed.

Lemma dot_click_navigates_witness :
  ∃ s', dispatch (DotClick 5) sample_initial = Ok () s' ∧
    currentSlide (this s') = Z.of_nat 5 + 1.
Proof.
  apply (dot_click_navigates 5 sample_initial).
  - split; vm_compute; [reflexivity | split; discriminate].
  - reflexivity.
  - reflexivity.
  - lia.
Defined.

(** ** Stepping through the deck *)

Lemma nextSlide_advances s :
  in_range s → length (slides (page s)) = 7%nat → currentSlide (this s) < 7 →
  ∃ s', nextSlide s = Ok () s' ∧ in_range s' ∧
    length (slides (page s')) = 7%nat ∧
    currentSlide (this s') = currentSlide (this s) + 1.
Proof.
  intros Hr Hlen Hc. unfold nextSlide. rewrite !bind_gets.
  destruct Hr as [Ht Hcur]. rewrite Ht, bool_decide_eq_true_2 by done.
  destruct (goToSlide_spec (currentSlide (this s) + 1) s (conj Ht Hcur) Hlen)
    as (s' & E & Hr' & Hlen' & _ & _ & Hc' & _).
  exists s'. rewrite Hc', bool_decide_eq_true_2 by lia. done.
Qed.

Lemma previousSlide_retreats s :
  in_range s → length (slides (page s)) = 7%nat → currentSlide (this s) > 1 →
  ∃ s', previousSlide s = Ok () s' ∧ in_range s' ∧
    length (slides (page s')) = 7%nat ∧
    currentSlide (this s') = currentSlide (this s) - 1.
Proof.
  intros Hr Hlen Hc. unfold previousSlide. rewrite !bind_gets.
  rewrite bool_decide_eq_true_2 by done.
  destruct (goToSlide_spec (currentSlide (this s) - 1) s Hr Hlen)
    as (s' & E & Hr' & Hlen' & _ & _ & Hc' & _).
  destruct Hr as [_ Hcur].
  exists s'. rewrite Hc', bool_decide_eq_true_2 by lia. done.
Qed.

(** X14. Next and previous undo each other away from the ends of the deck:
    before slide 7, [nextSlide] then [previousSlide] returns to the slide
    it started from, and after slide 1 so does [previousSlide] then
    [nextSlide]. *)
Theorem next_previous_round_trip s :
  in_range s → length (slides (page s)) = 7%nat →
  (currentSlide (this s) < 7 →
     ∃ s', (nextSlide ;; previousSlide) s = Ok () s' ∧
       currentSlide (this s') = currentSlide (this s)) ∧
  (currentSlide (this s) > 1 →
     ∃ s', (previousSlide ;; nextSlide) s = Ok () s' ∧
       currentSlide (this s') = currentSlide (this s)).
Proof.
  intros Hr Hlen. pose proof Hr as [_ Hcur]. split; intros Hc.
  - destruct (nextSlide_advances s Hr Hlen Hc) as (s1 & E1 & Hr1 & Hlen1 & Hc1).
    destruct (previousSlide_retreats s1 Hr1 Hlen1) as (s2 & E2 & _ & _ & Hc2);
      [lia|].
    exists s2. rewrite (bind_ok _ _ _ _ _ E1). split; [exact E2 | lia].
  - destruct (previousSlide_retreats s Hr Hlen Hc)
      as (s1 & E1 & Hr1 & Hlen1 & Hc1).
    destruct (nextSlide_advances s1 Hr1 Hlen1) as (s2 & E2 & _ & _ & Hc2);
      [lia|].
    exists s2. rewrite (bind_ok _ _ _ _ _ E1). split; [exact E2 | lia].
Qed.

Lemma next_previous_round_trip_witness :
  (∃ s', (nextSlide ;; previousSlide) sample_loaded = Ok () s' ∧
     currentSlide (this s') = currentSlide (this sample_loaded)) ∧
  (∃ s', (previousSlide ;; nextSlide) sample_last = Ok () s' ∧
     currentSlide (this s') = currentSlide (this sample_last)).
Proof.
  split.
  - destruct (next_previous_round_trip sample_loaded sample_loaded_in_range
                eq_refl) as [H _].
    apply H. vm_compute. reflexivity.
  - assert (Hr : in_range sample_last)
      by (split; vm_compute; [reflexivity | split; discriminate]).
    destruct (next_previous_round_trip sample_last Hr eq_refl) as [_ H].
    apply H. vm_compute. reflexivity.
Defined.

(** ** Touch *)

(** X15. A swipe on the loaded page, from touch start at [startX] to touch
    end at [endX]: more than 50 pixels to the left moves to the next slide
    (before slide 7), more than 50 pixels to the right moves to the
    previous slide (after slide 1), and anything shorter leaves the current
    slide where it is. *)
Theorem swipe_gesture s startX endX :
  isLoaded (this s) = true → in_range s → length (slides (page s)) = 7%nat →
  let gesture := handleTouchStart startX ;; handleTouchEnd endX in
  (endX - startX < -50 → currentSlide (this s) < 7 →
     ∃ s', gesture s = Ok () s' ∧
       currentSlide (this s') = currentSlide (this s) + 1) ∧
  (endX - startX > 50 → currentSlide (this s) > 1 →
     ∃ s', gesture s = Ok () s' ∧
       currentSlide (this s') = currentSlide (this s) - 1) ∧
  (Z.abs (endX - startX) ≤ 50 →
     ∃ s', gesture s = Ok () s' ∧
       currentSlide (this s') = currentSlide (this s)).
Proof.
  intros Hl Hr Hlen gesture. subst gesture.
  rewrite (touch_gesture s startX endX Hl).
  set (st := on_this (set_touchEndX endX) (on_this (set_touchStartX startX) s)).
  assert (Hst : in_range st ∧ length (slides (page st)) = 7%nat
                ∧ currentSlide (this st) = currentSlide (this s)) by done.
  destruct Hst as (Hr' & Hlen' & Hc'). pose proof Hr as [_ Hcur].
  unfold handleSwipe. rewrite !bind_gets.
  change (touchEndX (this st)) with endX.
  change (touchStartX (this st)) with startX.
  split; [|split].
  - intros Hd Hc. rewrite bool_decide_eq_true_2 by lia.
    rewrite bool_decide_eq_false_2 by lia.
    destruct (nextSlide_advances st Hr' Hlen') as (s' & E & _ & _ & Hc1); [lia|].
    exists s'. split; [exact E | lia].
  - intros Hd Hc. rewrite bool_decide_eq_true_2 by lia.
    rewrite bool_decide_eq_true_2 by lia.
    destruct (previousSlide_retreats st Hr' Hlen') as (s' & E & _ & _ & Hc1);
      [lia|].
    exists s'. split; [exact E | lia].
  - intros Hd. rewrite bool_decide_eq_false_2 by lia.
    exists st. split; [reflexivity | exact Hc'].
Qed.

Lemma swipe_gesture_witness :
  (∃ s', (handleTouchStart 300 ;; handleTouchEnd 200) sample_loaded = Ok () s' ∧
     currentSlide (this s') = currentSlide (this sample_loaded) + 1) ∧
  (∃ s', (handleTouchStart 200 ;; handleTouchEnd 300) sample_last = Ok () s' ∧
     currentSlide (this s') = currentSlide (this sample_last) - 1) ∧
  (∃ s', (handleTouchStart 200 ;; handleTouchEnd 250) sample_loaded = Ok () s' ∧
     currentSlide (this s') = currentSlide (this sample_loaded)).
Proof.
  assert (Hr : in_range sample_last)
    by (split; vm_compute; [reflexivity | split; discriminate]).
  assert (Hl : isLoaded (this sample_last) = true) by (vm_compute; reflexivity).
  split; [|split].
  - destruct (swipe_gesture sample_loaded 300 200 sample_loaded_isLoaded
                sample_loaded_in_range eq_refl) as (H & _ & _).
    apply H; [lia | vm_compute; reflexivity].
  - destruct (swipe_gesture sample_last 200 300 Hl Hr eq_refl) as (_ & H & _).
    apply H; [lia | vm_compute; reflexivity].
  - destruct (swipe_gesture sample_loaded 200 250 sample_loaded_isLoaded
                sample_loaded_in_range eq_refl) as (_ & _ & H).
    apply H. lia.
Defined.

(** ** Fullscreen *)

Lemma handleFullscreenChange_mirrored :
  preserves fullscreen_mirrored handleFullscreenChange.
Proof.
  intros s _. unfold handleFullscreenChange. rewrite !bind_modify, bind_gets.
  by_preservation. reflexivity.
Qed.
#[global] Hint Resolve handleFullscreenChange_mirrored : pres.

Lemma step_mirrored o : preserves fullscreen_mirrored (step o).
Proof.
  destruct o as [e|c]; [destruct e | destruct c]; simpl; pres.
Qed.

Lemma run_mirrored ops s : fullscreen_mirrored s → fullscreen_mirrored (run ops s).
Proof.
  revert s. induction ops as [|o ops IH]; intros s Hs; simpl; [done|].
  by apply IH, step_mirrored.
Qed.

(** X16. When the markup does not start with the class [fullscreen], the
    presentation carries that class exactly when [isFullscreen] is true, in
    every state the controller reaches. *)
Theorem fullscreen_class_mirrors_flag markup b ops :
  fullscreenClass markup = false →
  let s := run ops (final (constructor markup b)) in
  fullscreenClass (page s) = isFullscreen (this s).
Proof.
  intros Hm s. apply run_mirrored. unfold constructor. by_preservation.
  exact Hm.
Qed.

Lemma fullscreen_class_mirrors_flag_witness :
  let s := run [OnEvent (FullscreenChange all_vendors)]
             (final (constructor sample_markup sample_browser)) in
  fullscreenClass (page s) = isFullscreen (this s).
Proof.
  exact (fullscreen_class_mirrors_flag sample_markup sample_browser
           [OnEvent (FullscreenChange all_vendors)] eq_refl).
Defined.

(** X17. [isFullscreen] follows the browser, not the requests: no event
    and no call other than the fullscreen-change notification changes it.
    In particular the keys f and Escape only ask the browser to enter or
    leave fullscreen. *)
Theorem only_fullscreenchange_sets_flag o s :
  is_fullscreen_change o = false →
  isFullscreen (this (final (step o s))) = isFullscreen (this s).
Proof.
  intros Ho.
  assert (H : preserves (λ s', isFullscreen (this s') = isFullscreen (this s))
                (step o)).
  { destruct o as [e|c]; [destruct e | destruct c]; try discriminate;
      simpl; pres. }
  by apply H.
Qed.

Lemma only_fullscreenchange_sets_flag_witness :
  isFullscreen (this (final (step (OnEvent (KeyDown "f")) sample_loaded)))
  = isFullscreen (this sample_loaded).
Proof.
  apply (only_fullscreenchange_sets_flag (OnEvent (KeyDown "f")) sample_loaded).
  reflexivity.
Defined.

(** X18. Leaving fullscreen does not leave presentation mode: when the
    notification comes with no fullscreen element, [isFullscreen] and the
    class [fullscreen] go off and nothing else changes; presentation mode,
    its class and the pending timers stay as they are. *)
Theorem leaving_fullscreen_keeps_presentation_mode s :
  any_vendor (fullscreenElement (browser s)) = false →
  handleFullscreenChange s =
  Ok () (on_page (set_fullscreenClass false)
           (on_this (set_isFullscreen false) s)).
Proof.
  intros Hf. unfold handleFullscreenChange.
  rewrite !bind_modify, bind_gets. simpl. by rewrite Hf.
Qed.

Lemma sample_leaving_fullscreen_presenting :
  isFullscreen (this sample_leaving_fullscreen) = true ∧
  fullscreenClass (page sample_leaving_fullscreen) = true ∧
  isPresentationMode (this sample_leaving_fullscreen) = true ∧
  presentationModeClass (page sample_leaving_fullscreen) = true ∧
  length (pending CursorHide sample_leaving_fullscreen) = 1%nat.
Proof. do 4 (split; [vm_compute; reflexivity|]). vm_compute. reflexivity. Qed.

(** From fullscreen and presentation mode: the notification clears the
    fullscreen flag and class, and presentation mode stays on. *)
Lemma leaving_fullscreen_keeps_presentation_mode_witness :
  isFullscreen (this sample_leaving_fullscreen) = true ∧
  isPresentationMode (this sample_leaving_fullscreen) = true ∧
  handleFullscreenChange sample_leaving_fullscreen =
  Ok () (on_page (set_fullscreenClass false)
           (on_this (set_isFullscreen false) sample_leaving_fullscreen)).
Proof.
  split; [vm_compute; reflexivity|]. split; [vm_compute; reflexivity|].
  apply (leaving_fullscreen_keeps_presentation_mode sample_leaving_fullscreen).
  reflexivity.
Defined.

(** ** Sound *)

Lemma emit_muted k e : e ≠ PlayTone → preserves (muted_at k) (emit e).
Proof.
  intros He s [Hs Hk]. split; [exact Hs|]. simpl. unfold tones in *.
  rewrite filter_app, length_app, Hk. simpl.
  rewrite filter_cons, decide_False by done. simpl. lia.
Qed.

Lemma playTransitionSound_muted k : preserves (muted_at k) playTransitionSound.
Proof.
  intros s [Hs Hk]. unfold playTransitionSound. rewrite bind_gets, Hs.
  by split.
Qed.

#[global] Hint Extern 1 (_ ≠ PlayTone) => discriminate : pres.
#[global] Hint Resolve emit_muted playTransitionSound_muted : pres.

(** X19. While sound is off no tone is played: whatever happens other
    than a sound toggle (navigation by key, swipe, dot or call, timers,
    mode changes), sound stays off and the number of tones attempted does
    not change. *)
Theorem muted_plays_no_tone o s :
  is_sound_toggle o = false → soundEnabled (this s) = false →
  soundEnabled (this (final (step o s))) = false ∧
  tones (trace (browser (final (step o s)))) = tones (trace (browser s)).
Proof.
  intros Ho Hs.
  assert (H : preserves (muted_at (tones (trace (browser s)))) (step o)).
  { destruct o as [e|c]; [destruct e | destruct c]; try discriminate;
      simpl; pres. }
  by apply H.
Qed.

(** The sample page with sound switched off. *)
Lemma muted_plays_no_tone_witness :
  let s := run [OnEvent SoundToggleClick] sample_loaded in
  soundEnabled (this (final (step (OnCall (CallGoToSlide 3)) s))) = false ∧
  tones (trace (browser (final (step (OnCall (CallGoToSlide 3)) s))))
  = tones (trace (browser s)).
Proof.
  apply (muted_plays_no_tone (OnCall (CallGoToSlide 3))
           (run [OnEvent SoundToggleClick] sample_loaded)).
  - reflexivity.
  - vm_compute. reflexivity.
Defined.

(** ** Loading *)

Lemma runTask_loaded t : preserves (λ s, isLoaded (this s) = true) (runTask t).
Proof.
  destruct t; simpl; try pres.
  intros s _. rewrite !bind_modify. cbv beta.
  match goal with
  | |- isLoaded (this (final (?m ?st))) = true =>
      assert (H : preserves (λ s', isLoaded (this s') = true) m) by pres;
      exact (H st eq_refl)
  end.
Qed.
#[global] Hint Resolve runTask_loaded : pres.

(** X20. [isLoaded] is set by a timer callback and by nothing else, and it
    is never cleared: an event or call that is not a timer firing leaves it
    as it is, and once true it stays true whatever happens. *)
Theorem isLoaded_only_by_timer_and_for_good o s :
  (is_timer o = false →
     isLoaded (this (final (step o s))) = isLoaded (this s)) ∧
  (isLoaded (this s) = true → isLoaded (this (final (step o s))) = true).
Proof.
  split.
  - intros Ho.
    assert (H : preserves (λ s', isLoaded (this s') = isLoaded (this s)) (step o)).
    { destruct o as [e|c]; [destruct e | destruct c]; try discriminate;
        simpl; pres. }
    by apply H.
  - intros Hl.
    assert (H : preserves (λ s', isLoaded (this s') = true) (step o)).
    { destruct o as [e|c]; [destruct e | destruct c]; simpl; pres. }
    by apply H.
Qed.

Lemma isLoaded_only_by_timer_and_for_good_witness :
  isLoaded (this (final (step (OnEvent (KeyDown "ArrowRight")) sample_initial)))
  = isLoaded (this sample_initial) ∧
  isLoaded (this (final (step (OnEvent (TimerFires 2)) sample_loaded))) = true.
Proof.
  split.
  - destruct (isLoaded_only_by_timer_and_for_good
                (OnEvent (KeyDown "ArrowRight")) sample_initial) as [H _].
    apply H. reflexivity.
  - destruct (isLoaded_only_by_timer_and_for_good
                (OnEvent (TimerFires 2)) sample_loaded) as [_ H].
    apply H. vm_compute. reflexivity.
Defined.

(** X21. The load sequence, on a page that has the elements the
    constructor fetches, whatever its slides and dots: after a page load the
    constructor leaves the controller not loaded, with one pending timer, of
    2500 ms; when it fires the controller is loaded, the loading screen gets
    the class [hidden] and an 800 ms timer is set; when that one fires, the
    loading screen is taken out of the layout. This holds also where the
    reveal of the first slide throws for want of a slide. *)
Theorem load_sequence markup b :
  fresh_start markup b →
  let s0 := final (constructor markup b) in
  let s1 := run [OnEvent (TimerFires (nextTimer b))] s0 in
  let s2 := run (load_run b) s0 in
  isLoaded (this s0) = false ∧
  timers (browser s0) = [mkTimer (nextTimer b) 2500 LoadDone] ∧
  isLoaded (this s1) = true ∧ loadingHiddenClass (page s1) = true ∧
  mkTimer (S (nextTimer b)) 800 LoadingRemoved ∈ timers (browser s1) ∧
  isLoaded (this s2) = true ∧ loadingDisplayNone (page s2) = true.
Proof.
  intros (Ht & Hn & Ha) s0 s1 s2.
  assert (H0 : timers (browser s0) = [mkTimer (nextTimer b) 2500 LoadDone])
    by (subst s0; simpl; by rewrite Ht).
  assert (Hnext0 : nextTimer (browser s0) = S (nextTimer b)) by done.
  assert (Hl0 : isLoaded (this s0) = false) by done.
  assert (Hf0 : timers_fresh s0).
  { destruct (constructor_cursor markup b) as [Hf _]; [by repeat split|].
    exact Hf. }
  clearbody s0.
  split; [exact Hl0|]. split; [exact H0|].
  (* the 2500 ms timer *)
  assert (E1 : fireTimer (nextTimer b) s0 =
               (clearTimeout (nextTimer b) ;; runTask LoadDone) s0).
  { apply (fireTimer_pending _ (mkTimer (nextTimer b) 2500 LoadDone)).
    - rewrite H0. simpl. apply NoDup_singleton.
    - rewrite H0. left.
    - reflexivity. }
  assert (Hs1 : s1 = final (fireTimer (nextTimer b) s0)) by reflexivity.
  assert (Hf1 : timers_fresh s1) by (rewrite Hs1; by apply fireTimer_fresh).
  assert (H1 : isLoaded (this s1) = true ∧ loadingHiddenClass (page s1) = true ∧
               mkTimer (S (nextTimer b)) 800 LoadingRemoved ∈ timers (browser s1)).
  { rewrite Hs1, E1. unfold clearTimeout. rewrite bind_modify. simpl runTask.
    rewrite !bind_modify, bind_setTimeout. cbv beta.
    match goal with
    | |- isLoaded (this (final (?m ?st))) = _ ∧ _ =>
        assert (H : preserves
          (λ s', isLoaded (this s') = true ∧ loadingHiddenClass (page s') = true ∧
                 mkTimer (S (nextTimer b)) 800 LoadingRemoved ∈ timers (browser s'))
          m);
        [|apply H]
    end.
    - apply preserves_bind; [|intros _; pres].
      intros st Hst. by rewrite handleHashNavigation_inert.
    - split; [reflexivity|]. split; [reflexivity|].
      simpl. rewrite Hnext0. apply elem_of_app. right. left. }
  destruct H1 as (Hl1 & Hh1 & Hin1).
  split; [exact Hl1|]. split; [exact Hh1|]. split; [exact Hin1|].
  (* the 800 ms timer *)
  assert (E2 : fireTimer (S (nextTimer b)) s1 =
               (clearTimeout (S (nextTimer b)) ;; runTask LoadingRemoved) s1).
  { destruct Hf1 as (_ & _ & Hnd & _).
    by apply (fireTimer_pending _ (mkTimer (S (nextTimer b)) 800 LoadingRemoved)). }
  assert (Hs2 : s2 = final (fireTimer (S (nextTimer b)) s1)) by reflexivity.
  rewrite Hs2, E2. unfold clearTimeout. rewrite bind_modify. simpl.
  by rewrite Hl1.
Qed.

Lemma load_sequence_witness :
  let s0 := final (constructor sample_markup sample_browser) in
  let s1 := run [OnEvent (TimerFires (nextTimer sample_browser))] s0 in
  let s2 := run (load_run sample_browser) s0 in
  isLoaded (this s0) = false ∧
  timers (browser s0) = [mkTimer (nextTimer sample_browser) 2500 LoadDone] ∧
  isLoaded (this s1) = true ∧ loadingHiddenClass (page s1) = true ∧
  mkTimer (S (nextTimer sample_browser)) 800 LoadingRemoved
    ∈ timers (browser s1) ∧
  isLoaded (this s2) = true ∧ loadingDisplayNone (page s2) = true.
Proof.
  exact (load_sequence sample_markup sample_browser sample_fresh_start).
Defined.

(** ** What does not navigate *)

(** X22. Pointer moves, resizes, touch starts and moves, clicks on the
    sound button and fullscreen notifications never navigate: the current
    slide, the slides with their classes and attributes, the dots, the
    progress bar, the fragment and the announcements are left as they
    are. *)
Theorem passive_events_do_not_navigate e s :
  is_passive e = true →
  let s' := final (dispatch e s) in
  currentSlide (this s') = currentSlide (this s) ∧
  slides (page s') = slides (page s) ∧
  navDots (page s') = navDots (page s) ∧
  progressWidth (page s') = progressWidth (page s) ∧
  locationHash (page s') = locationHash (page s) ∧
  announcements (page s') = announcements (page s).
Proof.
  intros He s'.
  assert (H : preserves
                (λ st, currentSlide (this st) = currentSlide (this s) ∧
                       slides (page st) = slides (page s) ∧
                       navDots (page st) = navDots (page s) ∧
                       progressWidth (page st) = progressWidth (page s) ∧
                       locationHash (page st) = locationHash (page s) ∧
                       announcements (page st) = announcements (page s))
                (dispatch e)).
  { destruct e; try discriminate; simpl; pres. }
  by apply H.
Qed.

Lemma passive_events_do_not_navigate_witness :
  let s' := final (dispatch (FullscreenChange all_vendors) sample_loaded) in
  currentSlide (this s') = currentSlide (this sample_loaded) ∧
  slides (page s') = slides (page sample_loaded) ∧
  navDots (page s') = navDots (page sample_loaded) ∧
  progressWidth (page s') = progressWidth (page sample_loaded) ∧
  locationHash (page s') = locationHash (page sample_loaded) ∧
  announcements (page s') = announcements (page sample_loaded).
Proof.
  apply (passive_events_do_not_navigate (FullscreenChange all_vendors)
           sample_loaded).
  reflexivity.
Defined.

(** X23. Repeating a navigation does nothing more: on a page with the
    seven slides, a second [goToSlide(n)] right after the first returns
    with the state the first one left, whatever n is: no second tone, no
    second announcement, no new timer. *)
Theorem goToSlide_twice n s :
  in_range s → length (slides (page s)) = 7%nat →
  ∃ s', goToSlide n s = Ok () s' ∧ goToSlide n s' = Ok () s'.
Proof.
  intros Hr Hlen.
  destruct (goToSlide_spec n s Hr Hlen)
    as (s' & E & [Ht' Hc'] & _ & _ & Ha & Hcur & _).
  exists s'. split; [exact E|].
  assert (Hg : n < 1 ∨ n > totalSlides (this s') ∨ n = currentSlide (this s')).
  { rewrite Ht', Hcur. case_bool_decide; lia. }
  unfold goToSlide.
  rewrite (bind_ok _ _ _ _ _ (goToSlide_method_noop n s' Hg)).
  by apply updateAriaHidden_id.
Qed.

Lemma goToSlide_twice_witness :
  ∃ s', goToSlide 6 sample_loaded = Ok () s' ∧ goToSlide 6 s' = Ok () s'.
Proof.
  apply (goToSlide_twice 6 sample_loaded).
  - exact sample_loaded_in_range.
  - reflexivity.
Defined.
